(** * openmemory/api/repro_bug.py

    A shallow embedding of the reproduction script for the Pydantic
    validation error in OpenMemory MCP, and the properties its description
    states about it.

    The script is glue code over SQLAlchemy, Pydantic, [uuid], [datetime]
    and the application's own [app.models] / [app.schemas].  None of these
    live in the script, so the embedding is written against an interface:
    every call that leaves the script is an operation [Op], executed by a
    [Library].  The control flow of the script (sequencing, [for] loops,
    [try]/[except Exception], [with]) is embedded directly.

    The run starts at [main()].  The module's top level before it binds
    names (the imports, and [sys.path.insert] so that [app] is found) and
    is not part of the embedding.

    Layout:
    - Python preliminaries (strings, exceptions);
    - the interface to the imported modules, and the effect monad;
    - the script, function by function, in source order;
    - a reference library (an in-memory relational store with sessions,
      lazy and eager relationship loading);
    - what a run shows, and the vocabulary of the statements;
    - lemmas about the control flow, valid for every library;
    - runs on the reference library;
    - the properties. *)

From Stdlib Require Import String Ascii List ZArith Lia Bool Arith DecimalString.
Import ListNotations.
Open Scope string_scope.

(* ===================================================================== *)
(** ** Python preliminaries *)
(* ===================================================================== *)

(** The newline character written [\n] in the source. *)
Definition nl : string := String (ascii_of_nat 10) EmptyString.

(** [s * n] on strings. *)
Fixpoint repeat_str (s : string) (n : nat) : string :=
  match n with
  | O => EmptyString
  | S n' => s ++ repeat_str s n'
  end.

(** [str(n)] for a non-negative integer. *)
Definition str_nat (n : nat) : string := NilEmpty.string_of_uint (Nat.to_uint n).

(** [s[:n]]: the first [n] characters, or all of [s] when it is shorter.
    A character is an [ascii]; the text the script slices is the message
    of an exception. *)
Definition slice_to (n : nat) (s : string) : string := substring 0 n s.

(** [str(x)] for an optional string ([None] prints as [None]). *)
Definition str_option (x : option string) : string :=
  match x with
  | Some s => s
  | None => "None"
  end.

(** [sep.join(xs)]. *)
Fixpoint join (sep : string) (xs : list string) : string :=
  match xs with
  | [] => EmptyString
  | [x] => x
  | x :: rest => x ++ sep ++ join sep rest
  end.

(** [repr] of a list of strings, as an f-string prints it. *)
Definition repr_str_list (xs : list string) : string :=
  "[" ++ join ", " (map (fun s => "'" ++ s ++ "'") xs) ++ "]".

(** A raised exception: [type(e).__name__], [str(e)], and whether its class
    derives from [Exception] (a [KeyboardInterrupt] or [SystemExit] does
    not, and [except Exception] lets it through). *)
Record exn : Type := mk_exn {
  exn_type : string;
  exn_msg : string;
  exn_is_Exception : bool
}.

Inductive Outcome (A : Type) : Type :=
| Returned (a : A)
| Raised (e : exn).
Arguments Returned {A} a.
Arguments Raised {A} e.

(** Values of the dictionary literal passed as [metadata_]. *)
Inductive PyVal : Type :=
| PyStr (s : string)
| PyInt (n : Z).

Definition PyDict : Type := list (string * PyVal).

(* ===================================================================== *)
(** ** The imported modules *)
(* ===================================================================== *)

(** The types of the objects the script receives from the modules it
    imports.  [MemoryState] comes from [app.models]; only its member
    [active] and the [.value] of a member are used. *)
Class ObjectModel : Type := {
  Engine : Type;
  SessionFactory : Type;
  Session : Type;
  User : Type;
  App : Type;
  Category : Type;
  Memory : Type;
  Uuid : Type;
  Datetime : Type;
  MemoryState : Type;
  MemoryState_active : MemoryState;
  MemoryState_value : MemoryState -> string;
  (** [int(d.timestamp())] *)
  timestamp_int : Datetime -> Z
}.

Section Interface.
Context {OM : ObjectModel}.

(** What [session.add] accepts. *)
Inductive Entity : Type :=
| E_User (u : User)
| E_App (a : App)
| E_Category (c : Category)
| E_Memory (m : Memory).

(** The two relationships of [Memory] the script names. *)
Inductive Relationship : Type :=
| Memory_app
| Memory_categories.

(** The targets of [outerjoin]: [App, Memory.app_id == App.id] and
    [Memory.categories]. *)
Inductive JoinTarget : Type :=
| Join_App_on_app_id
| Join_Memory_categories.

(** A [Query] object over [Memory].  Building it touches nothing; only
    [.all()] runs it. *)
Record Query : Type := mk_Query {
  q_user_id : Uuid;
  q_state : MemoryState;
  q_outerjoins : list JoinTarget;
  q_joinedload : list Relationship
}.

(** [session.query(Memory).filter(Memory.user_id == user_id,
    Memory.state == state)] *)
Definition query_Memory_filter (user_id : Uuid) (state : MemoryState) : Query :=
  mk_Query user_id state [] [].

(** [query.outerjoin(target)] *)
Definition outerjoin (q : Query) (t : JoinTarget) : Query :=
  mk_Query (q_user_id q) (q_state q) (q_outerjoins q ++ [t]) (q_joinedload q).

(** [query.options(joinedload(r1), joinedload(r2), ...)] *)
Definition options (q : Query) (rels : list Relationship) : Query :=
  mk_Query (q_user_id q) (q_state q) (q_outerjoins q) (q_joinedload q ++ rels).

(** The keyword arguments of [MemoryResponse(...)].  [created_at] is a
    [datetime] in the bug demonstration and an [int] in the fix. *)
Record MemoryResponseArgs : Type := mk_args {
  arg_id : Uuid;
  arg_content : string;
  arg_created_at : Datetime + Z;
  arg_state : string;
  arg_app_id : Uuid;
  arg_app_name : option string;
  arg_categories : list string;
  arg_metadata_ : PyDict
}.

(** A validated [MemoryResponse]. *)
Record Response : Type := mk_Response {
  r_id : Uuid;
  r_content : string;
  r_created_at : Z;
  r_state : string;
  r_app_id : Uuid;
  r_app_name : option string;
  r_categories : list string;
  r_metadata_ : PyDict
}.

(** Every call that leaves the script, with the type of its result.
    Attribute reads on ORM objects are calls: the ORM instruments them and
    they may load from the database or raise.

    Objects are values: [Memory_categories_append] returns the memory
    after [memory.categories.append(c)], and the script's variable is
    rebound to it.

    [os_getenv], [os_putenv] and [sys_argv] belong to the modules [os] and
    [sys] that the script imports; the script's functions never call
    them. *)
Inductive Op : Type -> Type :=
(* sqlalchemy *)
| create_engine (url : string) (echo : bool) : Op Engine
| Base_metadata_create_all (engine : Engine) : Op unit
| sessionmaker (autocommit autoflush : bool) (bind : Engine) : Op SessionFactory
| call_SessionLocal (f : SessionFactory) : Op Session
| session_add (s : Session) (x : Entity) : Op unit
| session_flush (s : Session) : Op unit
| session_commit (s : Session) : Op unit
| session_close (s : Session) : Op unit
| query_all (s : Session) (q : Query) : Op (list Memory)
(* uuid, datetime *)
| uuid4 : Op Uuid
| datetime_now_UTC : Op Datetime
(* app.models: constructors *)
| new_User (id : Uuid) (user_id email : string) : Op User
| new_App (id : Uuid) (name : string) (owner_id : Uuid) : Op App
| new_Category (id : Uuid) (name : string) : Op Category
| new_Memory (id : Uuid) (content : string) (user_id app_id : Uuid)
    (state : MemoryState) (created_at : Datetime) (metadata_ : PyDict) : Op Memory
| Memory_categories_append (m : Memory) (c : Category) : Op Memory
(* app.models: attribute reads *)
| User_id (u : User) : Op Uuid
| App_id (a : App) : Op Uuid
| App_name (a : App) : Op string
| Category_name (c : Category) : Op string
| Memory_id (m : Memory) : Op Uuid
| Memory_content (m : Memory) : Op string
| Memory_created_at (m : Memory) : Op Datetime
| Memory_state (m : Memory) : Op MemoryState
| Memory_app_id (m : Memory) : Op Uuid
| Memory_get_app (m : Memory) : Op (option App)
| Memory_get_categories (m : Memory) : Op (list Category)
| Memory_metadata_ (m : Memory) : Op PyDict
(* app.schemas *)
| MemoryResponse (args : MemoryResponseArgs) : Op Response
(* os, sys *)
| os_getenv (key : string) : Op (option string)
| os_putenv (key value : string) : Op unit
| sys_argv : Op (list string).

(** What a run leaves behind, newest first: lines printed on standard
    output, tracebacks printed on standard error, and the calls made with
    their outcomes. *)
Inductive Event : Type :=
| ev_print (line : string)
| ev_traceback (e : exn)
| ev_call (A : Type) (o : Op A) (r : Outcome A).

(** The modules' behaviour: a state and the effect of every call on it. *)
Class Library : Type := {
  lib_state : Type;
  perform : forall A : Type, Op A -> lib_state -> Outcome A * lib_state
}.

Context {L : Library}.

Record World : Type := mk_World {
  trace : list Event;
  lib : lib_state
}.

(* --------------------------------------------------------------------- *)
(** *** The effect monad

    A computation runs in a world and either returns or raises; the
    effects made before a raise stay. *)

Definition M (A : Type) : Type := World -> Outcome A * World.

Definition ret {A : Type} (a : A) : M A := fun w => (Returned a, w).

Definition raise {A : Type} (e : exn) : M A := fun w => (Raised e, w).

Definition bind {A B : Type} (m : M A) (f : A -> M B) : M B :=
  fun w =>
    match m w with
    | (Returned a, w') => f a w'
    | (Raised e, w') => (Raised e, w')
    end.

(** [print(line)]: the line goes to standard output; writing there is
    taken to succeed. *)
Definition print (line : string) : M unit :=
  fun w => (Returned tt, mk_World (ev_print line :: trace w) (lib w)).

(** [traceback.print_exc()] while handling [e]: the traceback of [e] goes
    to standard error. *)
Definition traceback_print_exc (e : exn) : M unit :=
  fun w => (Returned tt, mk_World (ev_traceback e :: trace w) (lib w)).

(** A call into an imported module. *)
Definition call {A : Type} (o : Op A) : M A :=
  fun w =>
    let (r, st) := perform A o (lib w) in
    (r, mk_World (ev_call A o r :: trace w) st).

(** [try: body / except Exception as e: handler e] *)
Definition try_except {A : Type} (body : M A) (handler : exn -> M A) : M A :=
  fun w =>
    match body w with
    | (Returned a, w') => (Returned a, w')
    | (Raised e, w') =>
        if exn_is_Exception e then handler e w' else (Raised e, w')
    end.

(** [try: body / finally: cleanup]: the cleanup always runs; an exception
    of the body is raised again after it unless the cleanup raises. *)
Definition try_finally {A : Type} (body : M A) (cleanup : M unit) : M A :=
  fun w =>
    match body w with
    | (Returned a, w1) =>
        match cleanup w1 with
        | (Returned _, w2) => (Returned a, w2)
        | (Raised e', w2) => (Raised e', w2)
        end
    | (Raised e, w1) =>
        match cleanup w1 with
        | (Returned _, w2) => (Raised e, w2)
        | (Raised e', w2) => (Raised e', w2)
        end
    end.

(** [for x in xs: st = body x st] with the loop's variables threaded as
    [st]. *)
Fixpoint for_each {A St : Type} (xs : list A) (body : A -> St -> M St) (st : St) : M St :=
  match xs with
  | [] => ret st
  | x :: rest => bind (body x st) (fun st' => for_each rest body st')
  end.

(** [enumerate(xs, start)] *)
Definition enumerate {A : Type} (xs : list A) (start : nat) : list (nat * A) :=
  combine (seq start (length xs)) xs.

(** [with SessionLocal() as session: body]: the session's [__exit__]
    closes it. *)
Definition with_SessionLocal {A : Type} (SessionLocal : SessionFactory)
    (body : Session -> M A) : M A :=
  bind (call (call_SessionLocal SessionLocal)) (fun session =>
  try_finally (body session) (call (session_close session))).

End Interface.

Arguments Op {OM} _.
Arguments M {OM L} A.
Arguments World {OM L}.
Arguments Event {OM}.

Declare Scope py_scope.
Delimit Scope py_scope with py.
Notation "x <- m ;; k" := (bind m (fun x => k))
  (at level 61, m at next level, right associativity) : py_scope.
Notation "' pat <- m ;; k" := (bind m (fun x => match x with pat => k end))
  (at level 61, pat pattern, m at next level, right associativity) : py_scope.
Notation "m ;; k" := (bind m (fun _ => k))
  (at level 61, right associativity) : py_scope.
Open Scope py_scope.

(* ===================================================================== *)
(** ** The script *)
(* ===================================================================== *)

Section Script.
Context {OM : ObjectModel} {L : Library}.

(** [create_test_database()]: an in-memory SQLite engine with all tables
    created, and a session factory bound to it. *)
Definition create_test_database : M (Engine * SessionFactory) :=
  engine <- call (create_engine "sqlite:///:memory:" false) ;;
  call (Base_metadata_create_all engine) ;;
  SessionLocal <- call (sessionmaker false false engine) ;;
  ret (engine, SessionLocal).

(** [categories[i]] *)
Definition list_index {A : Type} (xs : list A) (i : nat) : M A :=
  match nth_error xs i with
  | Some x => ret x
  | None => raise (mk_exn "IndexError" "list index out of range" true)
  end.

(** [[f(x) for x in xs]] *)
Definition comprehension {A B : Type} (f : A -> M B) (xs : list A) : M (list B) :=
  for_each xs (fun x acc => y <- f x ;; ret (acc ++ [y])%list) [].

(** [setup_test_data(session)] *)
Definition setup_test_data (session : Session) : M (Uuid * Uuid * list Uuid) :=
  (* Create test user *)
  id <- call uuid4 ;;
  user <- call (new_User id "test_user_repro" "test@repro.com") ;;
  call (session_add session (E_User user)) ;;
  call (session_flush session) ;;
  (* Create test app *)
  id <- call uuid4 ;;
  owner_id <- call (User_id user) ;;
  app <- call (new_App id "Test App for Bug Reproduction" owner_id) ;;
  call (session_add session (E_App app)) ;;
  call (session_flush session) ;;
  (* Create test categories *)
  categories <- for_each (seq 0 2) (fun i categories =>
      id <- call uuid4 ;;
      category <- call (new_Category id ("category_" ++ str_nat (i + 1))) ;;
      let categories := (categories ++ [category])%list in
      call (session_add session (E_Category category)) ;;
      ret categories) [] ;;
  call (session_flush session) ;;
  (* Create memories with relationships *)
  memories <- for_each (seq 0 3) (fun i memories =>
      id <- call uuid4 ;;
      user_id <- call (User_id user) ;;
      app_id <- call (App_id app) ;;
      created_at <- call datetime_now_UTC ;;
      memory <- call (new_Memory id
                        ("Test memory content " ++ str_nat (i + 1) ++ " for demonstrating the bug")
                        user_id app_id MemoryState_active created_at
                        [("test", PyStr ("data_" ++ str_nat i)); ("index", PyInt (Z.of_nat i))]) ;;
      (* Add categories to some memories *)
      memory <- (if (i <? 2)%nat
                 then c <- list_index categories i ;;
                      call (Memory_categories_append memory c)
                 else ret memory) ;;
      let memories := (memories ++ [memory])%list in
      call (session_add session (E_Memory memory)) ;;
      ret memories) [] ;;
  call (session_commit session) ;;
  user_id <- call (User_id user) ;;
  app_id <- call (App_id app) ;;
  memory_ids <- comprehension (fun m => call (Memory_id m)) memories ;;
  ret (user_id, app_id, memory_ids).

(** Lines 96-101 and, word for word, 172-177: the database of a
    demonstration and its test data. *)
Definition prepare_test_data : M (SessionFactory * (Uuid * Uuid * list Uuid)) :=
  '(engine, SessionLocal) <- create_test_database ;;
  (* Setup test data *)
  ids <- with_SessionLocal SessionLocal (fun session =>
      '(user_id, app_id, memory_ids) <- setup_test_data session ;;
      print ("✅ Created test data: " ++ str_nat (length memory_ids) ++ " memories") ;;
      ret (user_id, app_id, memory_ids)) ;;
  ret (SessionLocal, ids).

(** Lines 136-145: the keyword arguments of the bug demonstration's
    [MemoryResponse(...)], evaluated left to right, then the call. *)
Definition bug_serialize (memory : Memory) : M Response :=
  id <- call (Memory_id memory) ;;
  content <- call (Memory_content memory) ;;
  created_at <- call (Memory_created_at memory) ;;
  state <- call (Memory_state memory) ;;
  app_id <- call (Memory_app_id memory) ;;
  app <- call (Memory_get_app memory) ;;
  app_name <- match app with
              | Some a => call (App_name a)
              | None => raise (mk_exn "AttributeError"
                                 "'NoneType' object has no attribute 'name'" true)
              end ;;
  cats <- call (Memory_get_categories memory) ;;
  categories <- comprehension (fun cat => call (Category_name cat)) cats ;;
  metadata_ <- call (Memory_metadata_ memory) ;;
  call (MemoryResponse
          (mk_args id content (inl created_at) (MemoryState_value state) app_id
                   (Some app_name) categories metadata_)).

(** Lines 130-153: one turn of the bug demonstration's loop; the result is
    the new value of [failed]. *)
Definition bug_loop_body (i : nat) (memory : Memory) (failed : bool) : M bool :=
  try_except
    (print ("   Memory " ++ str_nat i ++ ": Attempting to access memory.app.name...") ;;
     response <- bug_serialize memory ;;
     print ("      ✅ Success (unexpected!) - app_name: " ++ str_option (r_app_name response)) ;;
     ret failed)
    (fun e =>
     print ("      💥 FAILED: " ++ exn_type e) ;;
     print ("         Error: " ++ slice_to 100 (exn_msg e) ++ "...") ;;
     print "         ^ This is the bug! Can't access relationships after session close" ;;
     ret true).

(** Lines 105-118 of the bug demonstration: open a session and run the
    query with the two outer joins and no eager loading. *)
Definition bug_query (SessionLocal : SessionFactory) (user_id : Uuid)
  : M (Session * list Memory) :=
  session <- call (call_SessionLocal SessionLocal) ;;
  (* This is the problematic query - NO joinedload() *)
  let query := query_Memory_filter user_id MemoryState_active in
  (* Add the outer joins (but without eager loading) *)
  let query := outerjoin query Join_App_on_app_id in
  let query := outerjoin query Join_Memory_categories in
  (* Get the memories *)
  memories <- call (query_all session query) ;;
  ret (session, memories).

(** Lines 130-153: [for i, memory in ...: try ... except ...], from a
    given value of [failed]. *)
Definition bug_loop (xs : list (nat * Memory)) (failed : bool) : M bool :=
  for_each xs (fun '(i, memory) failed => bug_loop_body i memory failed) failed.

(** Lines 129-160: the loop over the memories and the verdict. *)
Definition bug_attempts (memories : list Memory) : M bool :=
  failed <- bug_loop (enumerate memories 1) false ;;
  if (failed : bool)
  then print (nl ++ "✅ Bug successfully reproduced!") ;; ret true
  else print (nl ++ "❌ Bug not reproduced - this might be SQLite-specific behavior") ;;
       ret false.

(** Lines 92-127: the demonstration up to its loop; the result is
    [memories]. *)
Definition bug_fetch : M (list Memory) :=
  print (nl ++ repeat_str "=" 60) ;;
  print "🐛 REPRODUCING THE BUG (WITHOUT FIX)" ;;
  print (repeat_str "=" 60) ;;
  '(SessionLocal, (user_id, app_id, memory_ids)) <- prepare_test_data ;;
  (* Now reproduce the bug *)
  print (nl ++ "Step 1: Query memories WITHOUT eager loading...") ;;
  '(session, memories) <- bug_query SessionLocal user_id ;;
  print ("   ✓ Found " ++ str_nat (length memories) ++ " memories") ;;
  (* This is crucial - close the session (happens in real pagination) *)
  print (nl ++ "Step 2: Close the database session (simulating pagination)...") ;;
  call (session_close session) ;;
  print "   ✓ Session closed" ;;
  print (nl ++ "Step 3: Try to serialize with Pydantic (accessing relationships)...") ;;
  print ("   This should fail because relationships weren't eager-loaded!" ++ nl) ;;
  ret memories.

(** [reproduce_bug_without_fix()] *)
Definition reproduce_bug_without_fix : M bool :=
  memories <- bug_fetch ;;
  bug_attempts memories.

(** Lines 214-223: the keyword arguments of the fix demonstration's
    [MemoryResponse(...)], then the call. *)
Definition fix_serialize (memory : Memory) : M Response :=
  id <- call (Memory_id memory) ;;
  content <- call (Memory_content memory) ;;
  created_at <- call (Memory_created_at memory) ;;
  state <- call (Memory_state memory) ;;
  app_id <- call (Memory_app_id memory) ;;
  app <- call (Memory_get_app memory) ;;
  app_name <- match app with
              | Some _ =>
                  app <- call (Memory_get_app memory) ;;
                  match app with
                  | Some a => name <- call (App_name a) ;; ret (Some name)
                  | None => raise (mk_exn "AttributeError"
                                     "'NoneType' object has no attribute 'name'" true)
                  end
              | None => ret None
              end ;;
  cats <- call (Memory_get_categories memory) ;;
  categories <- comprehension (fun cat => call (Category_name cat)) cats ;;
  metadata_ <- call (Memory_metadata_ memory) ;;
  call (MemoryResponse
          (mk_args id content (inr (timestamp_int created_at)) (MemoryState_value state)
                   app_id app_name categories metadata_)).

(** Lines 209-230: one turn of the fix demonstration's loop; the result is
    the new value of [success_count]. *)
Definition fix_loop_body (i : nat) (memory : Memory) (success_count : nat) : M nat :=
  try_except
    (print ("   Memory " ++ str_nat i ++ ": Serializing with eager-loaded data...") ;;
     response <- fix_serialize memory ;;
     let success_count := success_count + 1 in
     print ("      ✅ Success - app_name: '" ++ str_option (r_app_name response) ++ "'") ;;
     print ("         categories: " ++ repr_str_list (r_categories response)) ;;
     ret success_count)
    (fun e =>
     print ("      💥 Failed: " ++ exn_type e ++ ": " ++ slice_to 100 (exn_msg e)) ;;
     ret success_count).

(** Lines 180-199 of the fix demonstration: the same query with
    [joinedload(Memory.app)] and [joinedload(Memory.categories)]. *)
Definition fix_query (SessionLocal : SessionFactory) (user_id : Uuid)
  : M (Session * list Memory) :=
  session <- call (call_SessionLocal SessionLocal) ;;
  (* Start with the same base query *)
  let query := query_Memory_filter user_id MemoryState_active in
  (* Add the outer joins *)
  let query := outerjoin query Join_App_on_app_id in
  let query := outerjoin query Join_Memory_categories in
  (* THE FIX: Add eager loading! *)
  let query := options query [Memory_app; Memory_categories] in
  (* Get the memories *)
  memories <- call (query_all session query) ;;
  ret (session, memories).

(** Lines 209-230: [for i, memory in ...: try ... except ...], from a
    given value of [success_count]. *)
Definition fix_loop (xs : list (nat * Memory)) (success_count : nat) : M nat :=
  for_each xs (fun '(i, memory) success_count => fix_loop_body i memory success_count)
           success_count.

(** Lines 208-237: the loop over the memories and the verdict. *)
Definition fix_attempts (memories : list Memory) : M bool :=
  success_count <- fix_loop (enumerate memories 1) 0 ;;
  if (success_count =? length memories)%nat
  then print (nl ++ "✅ Fix confirmed: All " ++ str_nat success_count
                 ++ " memories serialized successfully!") ;;
       ret true
  else print (nl ++ "⚠️  Partial success: " ++ str_nat success_count ++ "/"
                 ++ str_nat (length memories) ++ " serialized") ;;
       ret false.

(** Lines 166-206: the demonstration up to its loop; the result is
    [memories]. *)
Definition fix_fetch : M (list Memory) :=
  print (nl ++ repeat_str "=" 60) ;;
  print "✅ DEMONSTRATING THE FIX (WITH EAGER LOADING)" ;;
  print (repeat_str "=" 60) ;;
  '(SessionLocal, (user_id, app_id, memory_ids)) <- prepare_test_data ;;
  print (nl ++ "Step 1: Query memories WITH eager loading (the fix)...") ;;
  '(session, memories) <- fix_query SessionLocal user_id ;;
  print ("   ✓ Found " ++ str_nat (length memories) ++ " memories with relationships pre-loaded") ;;
  print (nl ++ "Step 2: Close the database session...") ;;
  call (session_close session) ;;
  print "   ✓ Session closed (but data is already loaded!)" ;;
  print (nl ++ "Step 3: Serialize with Pydantic (should work now)..." ++ nl) ;;
  ret memories.

(** [demonstrate_fix_with_eager_loading()] *)
Definition demonstrate_fix_with_eager_loading : M bool :=
  memories <- fix_fetch ;;
  fix_attempts memories.

Definition diff_before : string := "
# In list_memories() endpoint:

query = db.query(Memory).filter(...)
query = query.outerjoin(App, Memory.app_id == App.id)
query = query.outerjoin(Memory.categories)

# ❌ Missing: query.options(joinedload(...))

# Direct pagination without transformer
paginated_results = sqlalchemy_paginate(query, params)
".

Definition diff_after : string := "
# In list_memories() endpoint:

query = db.query(Memory).filter(...)
query = query.outerjoin(App, Memory.app_id == App.id)
query = query.outerjoin(Memory.categories)

# ✅ THE FIX: Add eager loading
query = query.options(
    joinedload(Memory.app),
    joinedload(Memory.categories)
)

# ✅ Use transformer for explicit serialization
paginated_results = sqlalchemy_paginate(
    query, 
    params,
    transformer=lambda items: [
        MemoryResponse(
            id=memory.id,
            content=memory.content,
            created_at=memory.created_at,
            state=memory.state.value,
            app_id=memory.app_id,
            app_name=memory.app.name if memory.app else None,
            categories=[cat.name for cat in memory.categories],
            metadata_=memory.metadata_
        )
        for memory in items
    ]
)
".

(** [show_the_actual_code_diff()] *)
Definition show_the_actual_code_diff : M unit :=
  print (nl ++ repeat_str "=" 60) ;;
  print "📝 THE ACTUAL FIX IN memories.py" ;;
  print (repeat_str "=" 60) ;;
  print (nl ++ "🔴 BEFORE (broken code):") ;;
  print (repeat_str "-" 40) ;;
  print diff_before ;;
  print (nl ++ "🟢 AFTER (fixed code):") ;;
  print (repeat_str "-" 40) ;;
  print diff_after.

(** Lines 318-337: the summary. *)
Definition print_summary (bug_reproduced fix_works : bool) : M unit :=
  print (nl ++ repeat_str "=" 60) ;;
  print "📊 SUMMARY" ;;
  print (repeat_str "=" 60) ;;
  (if bug_reproduced
   then print (nl ++ "✅ Bug successfully reproduced!") ;;
        print "   The error occurs when:" ;;
        print "   1. SQLAlchemy relationships are not eagerly loaded" ;;
        print "   2. Session closes (during pagination)" ;;
        print "   3. Pydantic tries to access relationship fields" ;;
        print "   4. SQLAlchemy can't fetch data without active session"
   else print (nl ++ "⚠️  Bug not directly reproduced") ;;
        print "   (SQLite may behave differently than PostgreSQL)" ;;
        print "   But the issue is real in production!") ;;
  (if fix_works
   then print (nl ++ "✅ Fix validated!") ;;
        print "   The solution:" ;;
        print "   1. Use joinedload() to eagerly fetch relationships" ;;
        print "   2. Use explicit transformer in pagination" ;;
        print "   3. Add null safety checks"
   else ret tt) ;;
  print (nl ++ repeat_str "=" 60).

(** Lines 302-337: the body of [main]'s [try]. *)
Definition main_try : M unit :=
  (* Try to reproduce the bug *)
  print (nl ++ "Part 1: Attempting to reproduce the bug...") ;;
  bug_reproduced <- reproduce_bug_without_fix ;;
  (* Show the fix *)
  print (nl ++ "Part 2: Demonstrating the fix...") ;;
  fix_works <- demonstrate_fix_with_eager_loading ;;
  (* Show the code diff *)
  show_the_actual_code_diff ;;
  (* Summary *)
  print_summary bug_reproduced fix_works.

(** Lines 339-342: [main]'s [except Exception as e]. *)
Definition main_except (e : exn) : M unit :=
  print (nl ++ "💥 Unexpected error: " ++ exn_type e ++ ": " ++ exn_msg e) ;;
  traceback_print_exc e.

(** [main()] *)
Definition main : M unit :=
  print (nl ++ repeat_str "=" 60) ;;
  print " OpenMemory MCP - Pydantic Validation Bug Reproduction" ;;
  print " Using actual models from openmemory/api/app/" ;;
  print (repeat_str "=" 60) ;;
  try_except main_try main_except.

(** The exit status of the interpreter after [if __name__ == "__main__":
    main()]: 0 when [main] returns, 1 when an exception leaves it (a
    [SystemExit], which carries its own status, is not told apart). *)
Definition exit_code (r : Outcome unit) : Z :=
  match r with
  | Returned _ => 0
  | Raised _ => 1
  end.

End Script.

(* ===================================================================== *)
(** ** A reference library *)
(* ===================================================================== *)

(** Modelled from the spec: the modules the script imports are not part of
    it ([sqlalchemy], [app.models], [app.schemas]).  The description says
    of them: the script constructs an ephemeral database and schema,
    inserts related rows (user, application, memory record, category,
    tagging relationship), queries without or with pre-fetching of the
    related rows, closes the connection, and reads related data; "without
    pre-fetch, relationship access after session close raises; with
    pre-fetch, it does not".  The reference library is the smallest store
    that has these notions: engines with five tables, sessions with
    pending objects and a transaction, objects that remember the session
    that loaded them, relationships that are either loaded or not.

    Handles and UUIDs are fresh names drawn from counters. *)

(** The members of [app.models.MemoryState]: [active], and any other. *)
Inductive RefState_ : Type :=
| st_active
| st_other (value : string).

Definition RefState_value (s : RefState_) : string :=
  match s with
  | st_active => "active"
  | st_other v => v
  end.

Definition RefState_eqb (a b : RefState_) : bool :=
  match a, b with
  | st_active, st_active => true
  | st_other x, st_other y => String.eqb x y
  | _, _ => false
  end.

Record UserRow : Type := mk_UserRow {
  user_pk : nat;
  user_user_id : string;
  user_email : string
}.

Record AppRow : Type := mk_AppRow {
  app_pk : nat;
  app_name_col : string;
  app_owner_id : nat
}.

Record CategoryRow : Type := mk_CategoryRow {
  category_pk : nat;
  category_name_col : string
}.

Record MemoryRow : Type := mk_MemoryRow {
  memory_pk : nat;
  memory_content_col : string;
  memory_user_id : nat;
  memory_app_id_col : nat;
  memory_state_col : RefState_;
  memory_created_at_col : Z;
  memory_metadata_col : PyDict
}.

(** A session an object was loaded by, and the session's epoch then: the
    object is attached while the session's epoch is still that one. *)
Record Owner : Type := mk_Owner {
  owner_session : nat;
  owner_epoch : nat
}.

(** A [Memory] object: its columns, its two relationships ([None] while
    not loaded), and who loaded it ([None] for an object the script
    constructed). *)
Record MemoryObj : Type := mk_MemoryObj {
  mo_row : MemoryRow;
  mo_app : option (option AppRow);
  mo_categories : option (list CategoryRow);
  mo_owner : option Owner
}.

Record SessionFactoryObj : Type := mk_SessionFactoryObj {
  sf_autocommit : bool;
  sf_autoflush : bool;
  sf_bind : nat
}.

(** Modelled from the spec: the objects of [sqlalchemy] and [app.models]
    (absent from the script) as handles, rows and counters. *)
#[export] Instance RefObjects : ObjectModel := {|
  Engine := nat;
  SessionFactory := SessionFactoryObj;
  Session := nat;
  User := UserRow;
  App := AppRow;
  Category := CategoryRow;
  Memory := MemoryObj;
  Uuid := nat;
  Datetime := Z;
  MemoryState := RefState_;
  MemoryState_active := st_active;
  MemoryState_value := RefState_value;
  timestamp_int := fun d => d
|}.

(** The tables; [memory_categories] holds (memory id, category id). *)
Record Database : Type := mk_Database {
  has_schema : bool;
  users : list UserRow;
  apps : list AppRow;
  categories : list CategoryRow;
  memories : list MemoryRow;
  memory_categories : list (nat * nat)
}.

Definition empty_database : Database := mk_Database false [] [] [] [] [].

Record EngineState : Type := mk_EngineState {
  eng_url : string;
  eng_db : Database
}.

Record SessionState : Type := mk_SessionState {
  ss_bind : nat;
  ss_epoch : nat;
  ss_pending : list Entity;
  ss_tx : option Database
}.

(** The state of the reference library: the counters, the clock, the live
    engines and sessions, and the process's surroundings (database files,
    environment variables, command line). *)
Record RefLibState : Type := mk_RefLibState {
  next_handle : nat;
  next_uuid : nat;
  clock : Z;
  engines : list (nat * EngineState);
  sessions : list (nat * SessionState);
  files : list (string * Database);
  environ : list (string * string);
  argv : list string
}.

(* --------------------------------------------------------------------- *)
(** *** Stores keyed by handle *)

Fixpoint lookup {A : Type} (k : nat) (l : list (nat * A)) : option A :=
  match l with
  | [] => None
  | (k', v) :: rest => if Nat.eqb k k' then Some v else lookup k rest
  end.

Fixpoint insert {A : Type} (k : nat) (v : A) (l : list (nat * A)) : list (nat * A) :=
  match l with
  | [] => [(k, v)]
  | (k', v') :: rest =>
      if Nat.eqb k k' then (k, v) :: rest else (k', v') :: insert k v rest
  end.

Fixpoint lookup_str {A : Type} (k : string) (l : list (string * A)) : option A :=
  match l with
  | [] => None
  | (k', v) :: rest => if String.eqb k k' then Some v else lookup_str k rest
  end.

(* --------------------------------------------------------------------- *)
(** *** The calls *)

Definition RefM (A : Type) : Type := RefLibState -> Outcome A * RefLibState.

Definition set_engines (es : list (nat * EngineState)) (st : RefLibState) : RefLibState :=
  mk_RefLibState (next_handle st) (next_uuid st) (clock st) es (sessions st)
                 (files st) (environ st) (argv st).

Definition set_sessions (ss : list (nat * SessionState)) (st : RefLibState) : RefLibState :=
  mk_RefLibState (next_handle st) (next_uuid st) (clock st) (engines st) ss
                 (files st) (environ st) (argv st).

Definition set_files (fs : list (string * Database)) (st : RefLibState) : RefLibState :=
  mk_RefLibState (next_handle st) (next_uuid st) (clock st) (engines st) (sessions st)
                 fs (environ st) (argv st).

Definition set_next_handle (h : nat) (st : RefLibState) : RefLibState :=
  mk_RefLibState h (next_uuid st) (clock st) (engines st) (sessions st)
                 (files st) (environ st) (argv st).

Definition InvalidRequestError : exn :=
  mk_exn "InvalidRequestError" "This object is not known to the library" true.

Definition OperationalError : exn :=
  mk_exn "OperationalError" "(sqlite3.OperationalError) no such table" true.

(** The error of a lazy load on an object whose session is gone (the
    library's text, without the object's address). *)
Definition DetachedInstanceError (attribute : string) : exn :=
  mk_exn "DetachedInstanceError"
    ("Parent instance <Memory> is not bound to a Session; lazy load operation of attribute '"
       ++ attribute ++ "' cannot proceed (Background on this error at: https://sqlalche.me/e/20/bhk3)")
    true.

Definition is_memory_url (url : string) : bool := String.eqb url "sqlite:///:memory:".

(** A database under a file URL lives in that file; one under
    [sqlite:///:memory:] lives in the engine only. *)
Definition persist (url : string) (db : Database) (fs : list (string * Database))
  : list (string * Database) :=
  if is_memory_url url then fs else (url, db) :: fs.

Definition ref_create_engine (url : string) (echo : bool) : RefM nat :=
  fun st =>
    let h := next_handle st in
    let db := if is_memory_url url then empty_database
              else match lookup_str url (files st) with
                   | Some d => d
                   | None => empty_database
                   end in
    (Returned h, set_next_handle (S h) (set_engines (insert h (mk_EngineState url db) (engines st)) st)).

Definition with_schema (db : Database) : Database :=
  mk_Database true (users db) (apps db) (categories db) (memories db) (memory_categories db).

Definition ref_create_all (e : nat) : RefM unit :=
  fun st =>
    match lookup e (engines st) with
    | None => (Raised InvalidRequestError, st)
    | Some eng =>
        let db := with_schema (eng_db eng) in
        (Returned tt,
         set_files (persist (eng_url eng) db (files st))
           (set_engines (insert e (mk_EngineState (eng_url eng) db) (engines st)) st))
    end.

Definition ref_sessionmaker (autocommit autoflush : bool) (bind : nat) : RefM SessionFactoryObj :=
  fun st => (Returned (mk_SessionFactoryObj autocommit autoflush bind), st).

Definition ref_call_SessionLocal (f : SessionFactoryObj) : RefM nat :=
  fun st =>
    let h := next_handle st in
    (Returned h,
     set_next_handle (S h)
       (set_sessions (insert h (mk_SessionState (sf_bind f) 0 [] None) (sessions st)) st)).

Definition ref_session_add (s : nat) (x : Entity) : RefM unit :=
  fun st =>
    match lookup s (sessions st) with
    | None => (Raised InvalidRequestError, st)
    | Some ss =>
        (Returned tt,
         set_sessions (insert s (mk_SessionState (ss_bind ss) (ss_epoch ss)
                                   (ss_pending ss ++ [x]) (ss_tx ss)) (sessions st)) st)
    end.

(** The rows an object becomes when it is flushed. *)
Definition insert_entity (db : Database) (x : Entity) : Database :=
  match x with
  | E_User u =>
      mk_Database (has_schema db) (users db ++ [u]) (apps db) (categories db)
                  (memories db) (memory_categories db)
  | E_App a =>
      mk_Database (has_schema db) (users db) (apps db ++ [a]) (categories db)
                  (memories db) (memory_categories db)
  | E_Category c =>
      mk_Database (has_schema db) (users db) (apps db) (categories db ++ [c])
                  (memories db) (memory_categories db)
  | E_Memory m =>
      mk_Database (has_schema db) (users db) (apps db) (categories db)
                  (memories db ++ [mo_row m])
                  (memory_categories db ++
                     map (fun c => (memory_pk (mo_row m), category_pk c))
                         (match mo_categories m with Some cs => cs | None => [] end))
  end.

(** What a session reads and writes: its transaction when it has one,
    else the engine's committed data. *)
Definition working_db (ss : SessionState) (eng : EngineState) : Database :=
  match ss_tx ss with
  | Some d => d
  | None => eng_db eng
  end.

Definition flush_session (ss : SessionState) (eng : EngineState) : Outcome SessionState :=
  match ss_pending ss with
  | [] => Returned ss
  | pending =>
      let db := working_db ss eng in
      if has_schema db
      then Returned (mk_SessionState (ss_bind ss) (ss_epoch ss) []
                       (Some (fold_left insert_entity pending db)))
      else Raised OperationalError
  end.

Definition ref_session_flush (s : nat) : RefM unit :=
  fun st =>
    match lookup s (sessions st) with
    | None => (Raised InvalidRequestError, st)
    | Some ss =>
        match lookup (ss_bind ss) (engines st) with
        | None => (Raised InvalidRequestError, st)
        | Some eng =>
            match flush_session ss eng with
            | Raised e => (Raised e, st)
            | Returned ss' => (Returned tt, set_sessions (insert s ss' (sessions st)) st)
            end
        end
    end.

(** [session.commit()]: flush, then make the transaction the engine's
    data. *)
Definition ref_session_commit (s : nat) : RefM unit :=
  fun st =>
    match lookup s (sessions st) with
    | None => (Raised InvalidRequestError, st)
    | Some ss =>
        match lookup (ss_bind ss) (engines st) with
        | None => (Raised InvalidRequestError, st)
        | Some eng =>
            match flush_session ss eng with
            | Raised e => (Raised e, st)
            | Returned ss' =>
                let idle := mk_SessionState (ss_bind ss') (ss_epoch ss') [] None in
                match ss_tx ss' with
                | None => (Returned tt, set_sessions (insert s idle (sessions st)) st)
                | Some d =>
                    (Returned tt,
                     set_files (persist (eng_url eng) d (files st))
                       (set_sessions (insert s idle (sessions st))
                          (set_engines (insert (ss_bind ss) (mk_EngineState (eng_url eng) d)
                                          (engines st)) st)))
                end
            end
        end
    end.

(** [session.close()]: the transaction is rolled back, pending objects are
    dropped, and every object of the session is detached. *)
Definition ref_session_close (s : nat) : RefM unit :=
  fun st =>
    match lookup s (sessions st) with
    | None => (Raised InvalidRequestError, st)
    | Some ss =>
        (Returned tt,
         set_sessions (insert s (mk_SessionState (ss_bind ss) (S (ss_epoch ss)) [] None)
                         (sessions st)) st)
    end.

(* The query *)

Definition app_of (db : Database) (r : MemoryRow) : option AppRow :=
  find (fun a => Nat.eqb (app_pk a) (memory_app_id_col r)) (apps db).

Definition categories_of (db : Database) (r : MemoryRow) : list CategoryRow :=
  flat_map (fun mc => if Nat.eqb (fst mc) (memory_pk r)
                      then filter (fun c => Nat.eqb (category_pk c) (snd mc)) (categories db)
                      else [])
           (memory_categories db).

(** How many rows a memory contributes to a LEFT OUTER JOIN: one per
    match, and one when there is no match. *)
Definition join_width (db : Database) (r : MemoryRow) (t : JoinTarget) : nat :=
  match t with
  | Join_App_on_app_id =>
      Nat.max 1 (length (filter (fun a => Nat.eqb (app_pk a) (memory_app_id_col r)) (apps db)))
  | Join_Memory_categories => Nat.max 1 (length (categories_of db r))
  end.

Definition joined_rows (db : Database) (q : Query) : list MemoryRow :=
  flat_map (fun r => repeat r (fold_left (fun n t => n * join_width db r t) (q_outerjoins q) 1))
           (filter (fun r => Nat.eqb (memory_user_id r) (q_user_id q)
                             && RefState_eqb (memory_state_col r) (q_state q))
                   (memories db)).

(** A query for one entity returns each object once, at its first row. *)
Fixpoint unique_by_pk (seen : list nat) (rows : list MemoryRow) : list MemoryRow :=
  match rows with
  | [] => []
  | r :: rest =>
      if existsb (Nat.eqb (memory_pk r)) seen
      then unique_by_pk seen rest
      else r :: unique_by_pk (memory_pk r :: seen) rest
  end.

Definition Relationship_eqb (a b : Relationship) : bool :=
  match a, b with
  | Memory_app, Memory_app => true
  | Memory_categories, Memory_categories => true
  | _, _ => false
  end.

(** The object for a row: a relationship is loaded with the row when the
    query asked for it with [joinedload], and left for later otherwise. *)
Definition load_memory (db : Database) (q : Query) (o : Owner) (r : MemoryRow) : MemoryObj :=
  mk_MemoryObj r
    (if existsb (Relationship_eqb Memory_app) (q_joinedload q)
     then Some (app_of db r) else None)
    (if existsb (Relationship_eqb Memory_categories) (q_joinedload q)
     then Some (categories_of db r) else None)
    (Some o).

Definition ref_query_all (s : nat) (q : Query) : RefM (list MemoryObj) :=
  fun st =>
    match lookup s (sessions st) with
    | None => (Raised InvalidRequestError, st)
    | Some ss =>
        match lookup (ss_bind ss) (engines st) with
        | None => (Raised InvalidRequestError, st)
        | Some eng =>
            let db := working_db ss eng in
            if has_schema db
            then (Returned (map (load_memory db q (mk_Owner s (ss_epoch ss)))
                                (unique_by_pk [] (joined_rows db q))), st)
            else (Raised OperationalError, st)
        end
    end.

Definition ref_uuid4 : RefM nat :=
  fun st =>
    (Returned (next_uuid st),
     mk_RefLibState (next_handle st) (S (next_uuid st)) (clock st) (engines st) (sessions st)
                    (files st) (environ st) (argv st)).

Definition ref_now : RefM Z :=
  fun st =>
    (Returned (clock st),
     mk_RefLibState (next_handle st) (next_uuid st) (clock st + 1) (engines st) (sessions st)
                    (files st) (environ st) (argv st)).

(** The database an attached object can still load from. *)
Definition attached_db (st : RefLibState) (m : MemoryObj) : option Database :=
  match mo_owner m with
  | None => None
  | Some o =>
      match lookup (owner_session o) (sessions st) with
      | None => None
      | Some ss =>
          if Nat.eqb (ss_epoch ss) (owner_epoch o)
          then match lookup (ss_bind ss) (engines st) with
               | Some eng => Some (working_db ss eng)
               | None => None
               end
          else None
      end
  end.

(** [memory.app]: the loaded value, or a lazy load through the object's
    session, or [DetachedInstanceError] when that session is gone. *)
Definition ref_Memory_get_app (m : MemoryObj) : RefM (option AppRow) :=
  fun st =>
    match mo_app m with
    | Some a => (Returned a, st)
    | None =>
        match attached_db st m with
        | Some db => (Returned (app_of db (mo_row m)), st)
        | None => (Raised (DetachedInstanceError "app"), st)
        end
    end.

(** [memory.categories] *)
Definition ref_Memory_get_categories (m : MemoryObj) : RefM (list CategoryRow) :=
  fun st =>
    match mo_categories m with
    | Some cs => (Returned cs, st)
    | None =>
        match attached_db st m with
        | Some db => (Returned (categories_of db (mo_row m)), st)
        | None => (Raised (DetachedInstanceError "categories"), st)
        end
    end.

Definition ref_Memory_categories_append (m : MemoryObj) (c : CategoryRow) : RefM MemoryObj :=
  fun st =>
    match ref_Memory_get_categories m st with
    | (Returned cs, st') =>
        (Returned (mk_MemoryObj (mo_row m) (mo_app m) (Some (cs ++ [c])%list) (mo_owner m)), st')
    | (Raised e, st') => (Raised e, st')
    end.

(** An object the script constructs belongs to no session, and its
    relationships are empty rather than unloaded. *)
Definition ref_new_Memory (id : nat) (content : string) (user_id app_id : nat)
    (state : RefState_) (created_at : Z) (metadata_ : PyDict) : MemoryObj :=
  mk_MemoryObj (mk_MemoryRow id content user_id app_id state created_at metadata_)
               (Some None) (Some []) None.

Definition ref_putenv (key value : string) : RefM unit :=
  fun st =>
    (Returned tt,
     mk_RefLibState (next_handle st) (next_uuid st) (clock st) (engines st) (sessions st)
                    (files st) ((key, value) :: environ st) (argv st)).

Definition pure {A : Type} (a : A) : RefM A := fun st => (Returned a, st).

Section RefLibrary.

(** [app.schemas.MemoryResponse] is not part of the script: its
    validation is a parameter of the reference library. *)
Variable validate : MemoryResponseArgs -> Outcome Response.

(** Modelled from the spec: what each call into [sqlalchemy], [uuid],
    [datetime], [app.models], [app.schemas], [os] and [sys] does, none of
    which is in the script. *)
Definition ref_perform (A : Type) (o : Op A) : RefM A :=
  match o in Op A return RefM A with
  | create_engine url echo => ref_create_engine url echo
  | Base_metadata_create_all e => ref_create_all e
  | sessionmaker ac af e => ref_sessionmaker ac af e
  | call_SessionLocal f => ref_call_SessionLocal f
  | session_add s x => ref_session_add s x
  | session_flush s => ref_session_flush s
  | session_commit s => ref_session_commit s
  | session_close s => ref_session_close s
  | query_all s q => ref_query_all s q
  | uuid4 => ref_uuid4
  | datetime_now_UTC => ref_now
  | new_User id user_id email => pure (mk_UserRow id user_id email)
  | new_App id name owner_id => pure (mk_AppRow id name owner_id)
  | new_Category id name => pure (mk_CategoryRow id name)
  | new_Memory id content user_id app_id state created_at metadata_ =>
      pure (ref_new_Memory id content user_id app_id state created_at metadata_)
  | Memory_categories_append m c => ref_Memory_categories_append m c
  | User_id u => pure (user_pk u)
  | App_id a => pure (app_pk a)
  | App_name a => pure (app_name_col a)
  | Category_name c => pure (category_name_col c)
  | Memory_id m => pure (memory_pk (mo_row m))
  | Memory_content m => pure (memory_content_col (mo_row m))
  | Memory_created_at m => pure (memory_created_at_col (mo_row m))
  | Memory_state m => pure (memory_state_col (mo_row m))
  | Memory_app_id m => pure (memory_app_id_col (mo_row m))
  | Memory_get_app m => ref_Memory_get_app m
  | Memory_get_categories m => ref_Memory_get_categories m
  | Memory_metadata_ m => pure (memory_metadata_col (mo_row m))
  | MemoryResponse args => fun st => (validate args, st)
  | os_getenv key => fun st => (Returned (lookup_str key (environ st)), st)
  | os_putenv key value => ref_putenv key value
  | sys_argv => fun st => (Returned (argv st), st)
  end.

(** Modelled from the spec: the imported modules as one library. *)
Definition RefLib : Library := {|
  lib_state := RefLibState;
  perform := ref_perform
|}.

End RefLibrary.

(** Modelled from the spec: [app.schemas.MemoryResponse] is absent.  The
    script passes it [id], [content], [created_at] (a datetime it turns
    into an integer, or an integer), [state], [app_id], [app_name],
    [categories] and [metadata_]; the reference schema keeps them and
    requires [app_name] to be a string. *)
Definition ref_validate (args : MemoryResponseArgs) : Outcome Response :=
  match arg_app_name args with
  | None =>
      Raised (mk_exn "ValidationError"
                ("1 validation error for MemoryResponse" ++ nl ++ "app_name" ++ nl
                   ++ "  Input should be a valid string") true)
  | Some _ =>
      Returned (mk_Response (arg_id args) (arg_content args)
                  (match arg_created_at args with
                   | inl d => timestamp_int d
                   | inr z => z
                   end)
                  (arg_state args) (arg_app_id args) (arg_app_name args)
                  (arg_categories args) (arg_metadata_ args))
  end.

#[export] Instance Reference : Library := RefLib ref_validate.

(** A world of the reference library in which nothing has happened yet. *)
Definition fresh_state (fs : list (string * Database)) (env : list (string * string))
    (args : list string) : RefLibState :=
  mk_RefLibState 0 0 0 [] [] fs env args.

Definition fresh_world (fs : list (string * Database)) (env : list (string * string))
    (args : list string) : @World RefObjects Reference :=
  mk_World [] (fresh_state fs env args).

(* ===================================================================== *)
(** ** What a run shows *)
(* ===================================================================== *)

Section Observation.
Context {OM : ObjectModel}.

Inductive Table : Type :=
| T_users
| T_apps
| T_categories
| T_memories.

(** A call to the ORM or to the schema, without the identities of the
    objects it was made on. *)
Inductive Step : Type :=
| step_create_engine (url : string)
| step_create_all
| step_open_session
| step_add (t : Table)
| step_flush
| step_commit
| step_close
| step_query (joinedload : list Relationship)
| step_read (r : Relationship) (ok : bool)
| step_MemoryResponse (ok : bool).

(** What an observer of the process sees: standard output, the
    tracebacks on standard error, and the calls above. *)
Inductive Obs : Type :=
| out (line : string)
| err_traceback (e : exn)
| did (s : Step).

Definition succeeded {A : Type} (r : Outcome A) : bool :=
  match r with
  | Returned _ => true
  | Raised _ => false
  end.

Definition table_of (x : Entity) : Table :=
  match x with
  | E_User _ => T_users
  | E_App _ => T_apps
  | E_Category _ => T_categories
  | E_Memory _ => T_memories
  end.

Definition step_of {A : Type} (o : Op A) (r : Outcome A) : list Step :=
  match o with
  | create_engine url _ => [step_create_engine url]
  | Base_metadata_create_all _ => [step_create_all]
  | call_SessionLocal _ => [step_open_session]
  | session_add _ x => [step_add (table_of x)]
  | session_flush _ => [step_flush]
  | session_commit _ => [step_commit]
  | session_close _ => [step_close]
  | query_all _ q => [step_query (q_joinedload q)]
  | Memory_get_app _ => [step_read Memory_app (succeeded r)]
  | Memory_get_categories _ => [step_read Memory_categories (succeeded r)]
  | MemoryResponse _ => [step_MemoryResponse (succeeded r)]
  | _ => []
  end.

Definition observe1 (e : Event) : list Obs :=
  match e with
  | ev_print line => [out line]
  | ev_traceback e => [err_traceback e]
  | ev_call A o r => map did (step_of o r)
  end.

(** The observations of a trace, newest first like the trace. *)
Definition observe (t : list Event) : list Obs := flat_map observe1 t.

End Observation.

Arguments bind {OM L A B} m f w /.
Arguments call {OM L A} o w /.
Arguments ret {OM L A} a w /.
Arguments raise {OM L A} e w /.
Arguments print {OM L} line w /.
Arguments traceback_print_exc {OM L} e w /.

(* ===================================================================== *)
(** ** The vocabulary of the statements *)
(* ===================================================================== *)

Section Worlds.
Context {OM : ObjectModel} {L : Library}.

(** The world after [print(line)]. *)
Definition after_print (line : string) (w : World) : World :=
  mk_World (ev_print line :: trace w) (lib w).

(** The world in which [main]'s [try] starts: after the banner. *)
Definition after_banner (w : World) : World :=
  after_print (repeat_str "=" 60)
    (after_print " Using actual models from openmemory/api/app/"
       (after_print " OpenMemory MCP - Pydantic Validation Bug Reproduction"
          (after_print (nl ++ repeat_str "=" 60) w))).

(** The worlds in which the two demonstrations start. *)
Definition at_part_1 (w : World) : World :=
  after_print (nl ++ "Part 1: Attempting to reproduce the bug...") (after_banner w).

Definition at_part_2 (w1 : World) : World :=
  after_print (nl ++ "Part 2: Demonstrating the fix...") w1.

(** The world [main]'s handler leaves. *)
Definition after_main_except (e : exn) (w : World) : World :=
  mk_World (ev_traceback e
              :: ev_print (nl ++ "💥 Unexpected error: " ++ exn_type e ++ ": " ++ exn_msg e)
              :: trace w)
           (lib w).


End Worlds.

Section Histories.
Context {OM : ObjectModel}.

(** The observations of a trace, oldest first. *)
Definition history (t : list Event) : list Obs := rev (observe t).





End Histories.

Definition memory_url : string := "sqlite:///:memory:".

(** The calls, and the two prints of the diff. *)
Definition milestone (o : Obs) : bool :=
  match o with
  | did _ => true
  | out line => String.eqb line diff_before || String.eqb line diff_after
  | err_traceback _ => false
  end.

(** A step of a demonstration's loop: a read of a relationship or a
    [MemoryResponse(...)], successful or not. *)
Definition serialization_step (s : Step) : Prop :=
  match s with
  | step_read _ _ | step_MemoryResponse _ => True
  | _ => False
  end.

Section Disciplines.
Context {OM : ObjectModel} {L : Library}.

(** The milestones of a trace, oldest first. *)
Definition marks (t : list Event) : list Obs := filter milestone (history t).

(** A computation that adds only events satisfying [P] to the trace, in
    every world and however its calls end. *)
Definition within (P : Event -> Prop) {A : Type} (m : M A) : Prop :=
  forall w, exists new, trace (snd (m w)) = (new ++ trace w)%list /\ Forall P new.

(** A computation that, when it returns, has added the milestones [l] to
    the trace. *)
Definition emits {A : Type} (m : M A) (l : list Obs) : Prop :=
  forall w a w', m w = (Returned a, w') -> marks (trace w') = (marks (trace w) ++ l)%list.

(** An event of a demonstration's loop: a print that is not of the
    diff, or a call that is no step or a serialization step. *)
Definition attempt_event (e : Event) : Prop :=
  match e with
  | ev_print line => milestone (out line) = false
  | ev_traceback _ => True
  | ev_call _ o r => Forall serialization_step (step_of o r)
  end.

End Disciplines.

Section Vocabulary.
Context {OM : ObjectModel}.

(** A call that reads the command line or the environment. *)
Definition reads_process_op {A : Type} (o : Op A) : bool :=
  match o with
  | os_getenv _ | sys_argv => true
  | _ => false
  end.

(** A call that sets an environment variable, or creates an engine
    anywhere but in memory. *)
Definition writes_outside_op {A : Type} (o : Op A) : bool :=
  match o with
  | os_putenv _ _ => true
  | create_engine url _ => negb (String.eqb url "sqlite:///:memory:")
  | _ => false
  end.

(** An event that reads neither. *)
Definition reads_nothing_of_process (e : Event) : Prop :=
  match e with
  | ev_call _ o _ => reads_process_op o = false
  | _ => True
  end.

(** An event that writes to the console or calls into the library
    without leaving memory. *)
Definition writes_nothing_outside (e : Event) : Prop :=
  match e with
  | ev_call _ o _ => writes_outside_op o = false
  | _ => True
  end.

(** An event the script may produce: a print, a traceback, or a call
    that does neither. *)
Definition allowed (e : Event) : Prop :=
  reads_nothing_of_process e /\ writes_nothing_outside e.

End Vocabulary.

(* --------------------------------------------------------------------- *)
(** *** The test data, in the reference library *)

(** The rows [setup_test_data] adds, for the UUIDs drawn from [n] on and
    the clock read from [c] on. *)
Definition test_user (n : nat) : UserRow := mk_UserRow n "test_user_repro" "test@repro.com".

Definition test_app (n : nat) : AppRow := mk_AppRow (1 + n) "Test App for Bug Reproduction" n.

Definition test_categories (n : nat) : list CategoryRow :=
  [mk_CategoryRow (2 + n) "category_1"; mk_CategoryRow (3 + n) "category_2"].

Definition test_memory_row (n : nat) (c : Z) (i : nat) (content data : string) : MemoryRow :=
  mk_MemoryRow (4 + i + n) content n (1 + n) st_active c
               [("test", PyStr data); ("index", PyInt (Z.of_nat i))].

Definition test_rows (n : nat) (c : Z) : list MemoryRow :=
  [test_memory_row n c 0 "Test memory content 1 for demonstrating the bug" "data_0";
   test_memory_row n (c + 1) 1 "Test memory content 2 for demonstrating the bug" "data_1";
   test_memory_row n (c + 1 + 1) 2 "Test memory content 3 for demonstrating the bug" "data_2"].

(** The links of the first memory to the first category and of the
    second to the second. *)
Definition test_links (n : nat) : list (nat * nat) := [(4 + n, 2 + n); (5 + n, 3 + n)].

Definition with_test_data (n : nat) (c : Z) (db : Database) : Database :=
  mk_Database (has_schema db)
    (users db ++ [test_user n])
    (apps db ++ [test_app n])
    (categories db ++ test_categories n)
    (memories db ++ test_rows n c)
    (memory_categories db ++ test_links n).

Definition setup_steps : list Step :=
  [step_add T_users; step_flush; step_add T_apps; step_flush;
   step_add T_categories; step_add T_categories; step_flush;
   step_add T_memories; step_add T_memories; step_add T_memories; step_commit].

(** The state [setup_test_data] leaves. *)
Definition after_setup (s : nat) (ss : SessionState) (eng : EngineState) (st : RefLibState)
  : RefLibState :=
  let db := with_test_data (next_uuid st) (clock st) (eng_db eng) in
  mk_RefLibState (next_handle st) (7 + next_uuid st) (clock st + 1 + 1 + 1)
    (insert (ss_bind ss) (mk_EngineState (eng_url eng) db) (engines st))
    (insert s (mk_SessionState (ss_bind ss) (ss_epoch ss) [] None) (sessions st))
    (persist (eng_url eng) db (files st))
    (environ st) (argv st).

(** The state a demonstration's preparation leaves: one more engine,
    holding the test data, and one more session, closed. *)
Definition after_prepare (st : RefLibState) : RefLibState :=
  let h := next_handle st in
  mk_RefLibState (2 + h) (7 + next_uuid st) (clock st + 1 + 1 + 1)
    (insert h (mk_EngineState memory_url
                 (with_test_data (next_uuid st) (clock st) (with_schema empty_database)))
            (engines st))
    (insert (1 + h) (mk_SessionState h 1 [] None) (sessions st))
    (files st) (environ st) (argv st).


(** The state a demonstration leaves: the engine with the test data, and
    two closed sessions. *)
Definition after_demo (st : RefLibState) : RefLibState :=
  let h := next_handle st in
  mk_RefLibState (3 + h) (7 + next_uuid st) (clock st + 1 + 1 + 1)
    (insert h (mk_EngineState memory_url
                 (with_test_data (next_uuid st) (clock st) (with_schema empty_database)))
            (engines st))
    (insert (2 + h) (mk_SessionState h 1 [] None)
       (insert (1 + h) (mk_SessionState h 1 [] None) (sessions st)))
    (files st) (environ st) (argv st).

(** What the query of the bug demonstration returns: the three memories,
    relationships not loaded, owned by the query's session. *)
Definition bug_memories (st : RefLibState) : list MemoryObj :=
  map (fun r => mk_MemoryObj r None None (Some (mk_Owner (2 + next_handle st) 0)))
      (test_rows (next_uuid st) (clock st)).

(** What the query of the fix demonstration returns: the same memories
    with their application and categories loaded. *)
Definition fix_memories (st : RefLibState) : list MemoryObj :=
  let n := next_uuid st in
  map (fun rc => mk_MemoryObj (fst rc) (Some (Some (test_app n))) (Some (snd rc))
                              (Some (mk_Owner (2 + next_handle st) 0)))
      (combine (test_rows n (clock st))
               [[mk_CategoryRow (2 + n) "category_1"]; [mk_CategoryRow (3 + n) "category_2"]; []]).


(** A state with one in-memory engine, its tables created, and one
    session just opened on it. *)
Definition ready_state : RefLibState :=
  mk_RefLibState 2 0 0
    [(0, mk_EngineState memory_url (with_schema empty_database))]
    [(1, mk_SessionState 0 0 [] None)] [] [] [].

(** A memory that no session owns and whose relationships were never
    loaded. *)
Definition stray_memory : MemoryObj :=
  mk_MemoryObj (mk_MemoryRow 4 "Test memory content" 0 1 st_active 0 []) None None None.

(* --------------------------------------------------------------------- *)
(** *** What the runs show

    The observations of each part of the script, oldest first, as the
    reference library produces them from a world in which nothing has
    happened. *)

Definition prepare_transcript : list Obs :=
  Eval vm_compute in history (trace (snd (prepare_test_data (fresh_world [] [] [])))).

Definition bug_fetch_transcript : list Obs :=
  Eval vm_compute in history (trace (snd (bug_fetch (fresh_world [] [] [])))).

Definition fix_fetch_transcript : list Obs :=
  Eval vm_compute in history (trace (snd (fix_fetch (fresh_world [] [] [])))).

Definition bug_transcript : list Obs :=
  Eval vm_compute in history (trace (snd (reproduce_bug_without_fix (fresh_world [] [] [])))).

Definition fix_transcript : list Obs :=
  Eval vm_compute in
    history (trace (snd (demonstrate_fix_with_eager_loading (fresh_world [] [] [])))).

Definition main_transcript : list Obs :=
  Eval vm_compute in history (trace (snd (main (fresh_world [] [] [])))).

(** The steps of one demonstration: database, test data, query, close,
    then what its loop does. *)
Definition demo_steps (joinedload : list Relationship) (loop : list Step) : list Step :=
  ([step_create_engine memory_url; step_create_all; step_open_session]
     ++ setup_steps
     ++ [step_close; step_open_session; step_query joinedload; step_close]
     ++ loop)%list.

Definition bug_loop_steps : list Step :=
  [step_read Memory_app false; step_read Memory_app false; step_read Memory_app false].

Definition fix_turn_steps : list Step :=
  [step_read Memory_app true; step_read Memory_app true;
   step_read Memory_categories true; step_MemoryResponse true].

Definition fix_loop_steps : list Step :=
  (fix_turn_steps ++ fix_turn_steps ++ fix_turn_steps)%list.

(* --------------------------------------------------------------------- *)
(** *** Two other libraries *)

(** A library none of whose calls succeeds: every call raises [e]. *)
Definition Unavailable (e : exn) : @Library RefObjects := {|
  lib_state := unit;
  perform := fun A _ st => (Raised e, st)
|}.

Definition database_error : exn :=
  mk_exn "OperationalError" "(sqlite3.OperationalError) unable to open database file" true.

Definition keyboard_interrupt : exn := mk_exn "KeyboardInterrupt" EmptyString false.

Definition offline_world (e : exn) : @World RefObjects (Unavailable e) :=
  @mk_World RefObjects (Unavailable e) [] tt.

(** The reference library with a schema that wants every memory to
    have a category, which the third memory of the test data has not. *)
Definition validation_error : exn :=
  mk_exn "ValidationError"
    ("1 validation error for MemoryResponse" ++ nl ++ "categories" ++ nl
       ++ "  List should have at least 1 item after validation, not 0") true.

Definition validate_with_category (args : @MemoryResponseArgs RefObjects)
  : Outcome (@Response RefObjects) :=
  match arg_categories args with
  | [] => Raised validation_error
  | _ => ref_validate args
  end.

Definition strict_world : @World RefObjects (RefLib validate_with_category) :=
  @mk_World RefObjects (RefLib validate_with_category) [] (fresh_state [] [] []).


(* --------------------------------------------------------------------- *)
(** *** Vocabulary of the further properties *)

Section Origins.
Context {OM : ObjectModel} {L : Library}.

(** One of the calls of [new] raised [e]. *)
Definition raised_by_call (e : exn) (new : list Event) : Prop :=
  exists (A : Type) (o : Op A), In (ev_call A o (Raised e)) new.

(** An exception that leaves [m] is one that [allow] lets through or
    that one of [m]'s own calls raised. *)
Definition raises_from_calls (allow : exn -> Prop) {A : Type} (m : M A) : Prop :=
  forall w, exists new,
    trace (snd (m w)) = (new ++ trace w)%list
    /\ forall e, fst (m w) = Raised e -> allow e \/ raised_by_call e new.

(** The newest event of [t] is a call that raised [e]. *)
Definition raised_at_call (e : exn) (t : list Event) : Prop :=
  exists (A : Type) (o : Op A) (rest : list Event), t = ev_call A o (Raised e) :: rest.


End Origins.

Section Stops.
Context {OM : ObjectModel} {L : Library}.

(** When [m] raises, the newest event is the call that raised: [m] does
    nothing after it. *)
Definition stops_at_raise {A : Type} (m : M A) : Prop :=
  forall w e w', m w = (Raised e, w') -> raised_at_call e (trace w').

End Stops.

(** A memory whose relationships were loaded, and whose application
    does not exist: [memory.app] is [None]. *)
Definition orphan_memory : MemoryObj :=
  mk_MemoryObj (mk_MemoryRow 4 "Test memory content" 0 1 st_active 0 []) (Some None) (Some [])
               None.

Section Verdicts.
Context {OM : ObjectModel} {L : Library}.

(** Every memory of the list serializes, each in the world the loop of
    the bug demonstration reaches it in. *)
Fixpoint none_fails (xs : list (nat * Memory)) (w : World) : Prop :=
  match xs with
  | [] => True
  | (i, memory) :: rest =>
      exists response w1,
        bug_serialize memory
          (after_print ("   Memory " ++ str_nat i ++ ": Attempting to access memory.app.name...") w)
        = (Returned response, w1)
        /\ none_fails rest
             (after_print ("      ✅ Success (unexpected!) - app_name: "
                             ++ str_option (r_app_name response)) w1)
  end.

End Verdicts.

Section Sessions.
Context {OM : ObjectModel}.

(** [SessionLocal()] returned a session. *)
Definition is_open (e : Event) : bool :=
  match e with
  | ev_call _ (call_SessionLocal _) (Returned _) => true
  | _ => false
  end.

(** [session.close()] was called. *)
Definition is_close (e : Event) : bool :=
  match e with
  | ev_call _ (session_close _) _ => true
  | _ => false
  end.


(** The sessions opened, and the calls of [close], in a trace. *)
Definition opens (t : list Event) : nat := length (filter is_open t).

Definition closes (t : list Event) : nat := length (filter is_close t).


End Sessions.

(** The reference library with a query that answers [answer] whatever
    the database holds. *)
Definition with_query (answer : Outcome (list MemoryObj)) : @Library RefObjects := {|
  lib_state := RefLibState;
  perform := fun A o =>
    match o in Op T return RefLibState -> Outcome T * RefLibState with
    | query_all _ _ => fun st => (answer, st)
    | o' => ref_perform ref_validate _ o'
    end
|}.

Definition world_with_query (answer : Outcome (list MemoryObj))
  : @World RefObjects (with_query answer) :=
  @mk_World RefObjects (with_query answer) [] (fresh_state [] [] []).

Section Lines.
Context {OM : ObjectModel}.

(** The event is the print of [line]. *)
Definition prints (line : string) (e : Event) : bool :=
  match e with
  | ev_print l => String.eqb l line
  | _ => false
  end.

(** The event is the print of none of [lines]. *)
Definition prints_none_of (lines : list string) (e : Event) : Prop :=
  forallb (fun line => negb (prints line e)) lines = true.

(** The lines that close a run of [main] without exception: the two of
    the diff, and the title and the verdict of the summary. *)
Definition closing_lines : list string :=
  [diff_before; diff_after; "📊 SUMMARY"; nl ++ "✅ Fix validated!"].

End Lines.

Section Announcements.
Context {OM : ObjectModel}.

(** The lines of a trace that announce an attempt on a memory
    ([   Memory i: ...]), oldest first. *)
Definition announced (t : list Event) : list string :=
  flat_map (fun e => match e with
                     | ev_print line => if String.prefix "   Memory " line then [line] else []
                     | _ => []
                     end)
           (rev t).

(** An event that is no print. *)
Definition no_print (e : Event) : Prop :=
  match e with
  | ev_print _ => False
  | _ => True
  end.

End Announcements.

(** The announcements of the two loops for the memory numbered [i]. *)
Definition bug_announcement (i : nat) : string :=
  "   Memory " ++ str_nat i ++ ": Attempting to access memory.app.name...".

Definition fix_announcement (i : nat) : string :=
  "   Memory " ++ str_nat i ++ ": Serializing with eager-loaded data...".

Section Added.
Context {OM : ObjectModel}.

(** The objects given to [session.add], oldest first. *)
Definition added (t : list Event) : list Entity :=
  flat_map (fun e => match e with
                     | ev_call _ (session_add _ x) (Returned _) => [x]
                     | _ => []
                     end)
           (rev t).

End Added.
(* ===================================================================== *)
(** ** The control flow, for every library *)
(* ===================================================================== *)

Lemma observe_app {OM : ObjectModel} (t1 t2 : list Event) :
  observe (t1 ++ t2) = (observe t1 ++ observe t2)%list.
Proof. apply flat_map_app. Qed.

Lemma observe_cons {OM : ObjectModel} (e : Event) (t : list Event) :
  observe (e :: t) = (observe1 e ++ observe t)%list.
Proof. reflexivity. Qed.

Lemma history_extended {OM : ObjectModel} (t t' : list Event) (new : list Obs) :
  observe t' = (rev new ++ observe t)%list -> history t' = (history t ++ new)%list.
Proof. unfold history. intros ->. now rewrite rev_app_distr, rev_involutive. Qed.




Section ControlFlow.
Context {OM : ObjectModel} {L : Library}.

Lemma main_unfold (w : World) :
  main w = try_except main_try main_except (after_banner w).
Proof. reflexivity. Qed.

(** How [main] ends, from how its [try] block ends. *)
Lemma main_outcome (w : World) :
  match main_try (after_banner w) with
  | (Returned v, w') => main w = (Returned v, w')
  | (Raised e, w') =>
      if exn_is_Exception e
      then main w = (Returned tt, after_main_except e w')
      else main w = (Raised e, w')
  end.
Proof.
  rewrite main_unfold. unfold try_except.
  destruct (main_try (after_banner w)) as [[v|e] w']; [reflexivity|].
  now destruct (exn_is_Exception e).
Qed.

(** An exception that leaves a demonstration leaves the [try] block. *)
Lemma main_try_bug_raised (w : World) e w2 :
  reproduce_bug_without_fix (at_part_1 w) = (Raised e, w2) ->
  main_try (after_banner w) = (Raised e, w2).
Proof.
  intros H. unfold main_try. cbn [bind print].
  unfold at_part_1, after_print in H. now rewrite H.
Qed.

Lemma main_try_fix_raised (w : World) b w1 e w2 :
  reproduce_bug_without_fix (at_part_1 w) = (Returned b, w1) ->
  demonstrate_fix_with_eager_loading (at_part_2 w1) = (Raised e, w2) ->
  main_try (after_banner w) = (Raised e, w2).
Proof.
  intros H1 H2. unfold main_try. cbn [bind print].
  unfold at_part_1, after_print in H1. rewrite H1. cbn [bind print].
  unfold at_part_2, after_print in H2. now rewrite H2.
Qed.



(** Once a turn has failed the loop can only return [True]. *)
Lemma bug_loop_stays_failed (xs : list (nat * Memory)) :
  forall w r w', bug_loop xs true w = (Returned r, w') -> r = true.
Proof.
  unfold bug_loop.
  induction xs as [|[i m] xs IH]; intros w r w' H; simpl in H.
  - now inversion H.
  - destruct (bug_loop_body i m true w) as [[f|e] w1] eqn:Hb; [|discriminate].
    assert (f = true) as ->; [|now apply IH in H].
    unfold bug_loop_body, try_except in Hb.
    cbn in Hb.
    destruct (bug_serialize m _) as [[resp|e] w2]; cbn in Hb.
    + now inversion Hb.
    + destruct (exn_is_Exception e); now inversion Hb.
Qed.

(** The three ways a turn of the fix demonstration's loop can go. *)
Lemma fix_loop_body_cases (i : nat) (memory : Memory) (count : nat) (w : World) :
  let w0 := after_print ("   Memory " ++ str_nat i ++ ": Serializing with eager-loaded data...") w in
  match fix_serialize memory w0 with
  | (Returned response, w1) =>
      fix_loop_body i memory count w =
        (Returned (count + 1),
         after_print ("         categories: " ++ repr_str_list (r_categories response))
           (after_print ("      ✅ Success - app_name: '"
                           ++ str_option (r_app_name response) ++ "'") w1))
  | (Raised e, w1) =>
      if exn_is_Exception e
      then fix_loop_body i memory count w =
             (Returned count,
              after_print ("      💥 Failed: " ++ exn_type e ++ ": " ++ slice_to 100 (exn_msg e)) w1)
      else fix_loop_body i memory count w = (Raised e, w1)
  end.
Proof.
  unfold fix_loop_body, try_except. cbn.
  destruct (fix_serialize memory _) as [[response|e] w1]; cbn; [reflexivity|].
  now destruct (exn_is_Exception e).
Qed.

(** The loop never counts more than one success per memory. *)
Lemma fix_loop_bound (xs : list (nat * Memory)) :
  forall count w r w', fix_loop xs count w = (Returned r, w') -> r <= count + length xs.
Proof.
  unfold fix_loop.
  induction xs as [|[i m] xs IH]; intros count w r w' H; simpl in H.
  - inversion H. simpl. lia.
  - pose proof (fix_loop_body_cases i m count w) as Hc. cbn zeta in Hc.
    destruct (fix_serialize m _) as [[response|e] w1].
    + rewrite Hc in H. apply IH in H. simpl. lia.
    + destruct (exn_is_Exception e); rewrite Hc in H; [|discriminate].
      apply IH in H. simpl. lia.
Qed.



End ControlFlow.

(* --------------------------------------------------------------------- *)
(** *** The calls the script makes

    Whatever the library does, the script adds to the trace only prints,
    tracebacks, and calls that neither read the process's command line
    or environment nor write outside memory.  The proof walks through
    the script, function by function. *)

Section Confinement.
Context {OM : ObjectModel} {L : Library}.
Variable P : Event -> Prop.

Lemma within_ret {A : Type} (a : A) : within P (ret a).
Proof. intros w. exists []. now split. Qed.

Lemma within_raise {A : Type} (e : exn) : within P (@raise _ _ A e).
Proof. intros w. exists []. now split. Qed.

Lemma within_print (line : string) : P (ev_print line) -> within P (print line).
Proof. intros H w. exists [ev_print line]. split; [reflexivity|]. now repeat constructor. Qed.

Lemma within_traceback (e : exn) : P (ev_traceback e) -> within P (traceback_print_exc e).
Proof. intros H w. exists [ev_traceback e]. split; [reflexivity|]. now repeat constructor. Qed.

Lemma within_call {A : Type} (o : Op A) :
  (forall r, P (ev_call A o r)) -> within P (call o).
Proof.
  intros H w. unfold call.
  destruct (perform A o (lib w)) as [r st]. exists [ev_call A o r].
  split; [reflexivity|]. constructor; [apply H | constructor].
Qed.

Lemma within_bind {A B : Type} (m : M A) (f : A -> M B) :
  within P m -> (forall a, within P (f a)) -> within P (bind m f).
Proof.
  intros Hm Hf w. unfold bind.
  destruct (Hm w) as (new1 & Ht1 & Hok1).
  destruct (m w) as [[a|e] w1]; cbn [snd] in *.
  - destruct (Hf a w1) as (new2 & Ht2 & Hok2).
    exists (new2 ++ new1)%list. rewrite Ht2, Ht1, app_assoc.
    split; [reflexivity|]. now apply Forall_app.
  - now exists new1.
Qed.

Lemma within_try_except {A : Type} (body : M A) (handler : exn -> M A) :
  within P body -> (forall e, within P (handler e)) -> within P (try_except body handler).
Proof.
  intros Hb Hh w. unfold try_except.
  destruct (Hb w) as (new1 & Ht1 & Hok1).
  destruct (body w) as [[a|e] w1]; cbn [snd] in *.
  - now exists new1.
  - destruct (exn_is_Exception e); [|now exists new1].
    destruct (Hh e w1) as (new2 & Ht2 & Hok2).
    exists (new2 ++ new1)%list. rewrite Ht2, Ht1, app_assoc.
    split; [reflexivity|]. now apply Forall_app.
Qed.

Lemma within_try_finally {A : Type} (body : M A) (cleanup : M unit) :
  within P body -> within P cleanup -> within P (try_finally body cleanup).
Proof.
  intros Hb Hc w. unfold try_finally.
  destruct (Hb w) as (new1 & Ht1 & Hok1).
  destruct (body w) as [[a|e] w1]; cbn [snd] in *;
    destruct (Hc w1) as (new2 & Ht2 & Hok2);
    destruct (cleanup w1) as [[u|e'] w2]; cbn [snd] in *;
    exists (new2 ++ new1)%list; rewrite Ht2, Ht1, app_assoc;
    (split; [reflexivity|]); now apply Forall_app.
Qed.

Lemma within_for_each {A St : Type} (xs : list A) (body : A -> St -> M St) :
  (forall x st, within P (body x st)) -> forall st, within P (for_each xs body st).
Proof.
  intros Hbody. induction xs as [|x xs IH]; intros st; cbn [for_each].
  - apply within_ret.
  - apply within_bind; [apply Hbody | exact IH].
Qed.

Lemma within_with_SessionLocal {A : Type} (f : SessionFactory) (body : Session -> M A) :
  (forall r, P (ev_call _ (call_SessionLocal f) r)) ->
  (forall s r, P (ev_call _ (session_close s) r)) ->
  (forall s, within P (body s)) -> within P (with_SessionLocal f body).
Proof.
  intros Hopen Hclose Hb. unfold with_SessionLocal.
  apply within_bind; [now apply within_call|].
  intros s. apply within_try_finally; [apply Hb | apply within_call, Hclose].
Qed.

End Confinement.

(** Walk through a function of the script; [side] proves that an event
    is one of those wanted. *)
Ltac walk side :=
  repeat first
    [ apply within_ret
    | apply within_raise
    | apply within_print; side
    | apply within_traceback; side
    | apply within_call; intro; side
    | apply within_bind; [|intro]
    | apply within_try_except; [|intro]
    | apply within_for_each; intros
    | apply within_with_SessionLocal; [intro; side | intros; side | intro]
    | match goal with
      | |- within _ (match ?x with _ => _ end) => destruct x
      | |- within _ ((match ?x with _ => _ end) _) => destruct x; cbv beta
      | |- within _ (if ?b then _ else _) => destruct b
      | |- within _ (let _ := _ in _) => cbv zeta
      | |- forall _, _ => intro
      end ].

Ltac confine := walk ltac:(split; first [exact I | reflexivity]).

Section Confined.
Context {OM : ObjectModel} {L : Library}.

Lemma confined_create_test_database : within allowed create_test_database.
Proof. unfold create_test_database. confine. Qed.

Lemma confined_setup_test_data (session : Session) : within allowed (setup_test_data session).
Proof. unfold setup_test_data, comprehension, list_index. confine. Qed.

Lemma confined_prepare_test_data : within allowed prepare_test_data.
Proof.
  unfold prepare_test_data.
  apply within_bind; [apply confined_create_test_database|]. intros [engine SessionLocal].
  apply within_bind; [|intro; apply within_ret].
  apply within_with_SessionLocal; [intro; now split | intros; now split |]. intro session.
  apply within_bind; [apply confined_setup_test_data|]. confine.
Qed.

Lemma confined_bug_fetch : within allowed bug_fetch.
Proof.
  unfold bug_fetch, bug_query.
  do 3 (apply within_bind; [apply within_print; now split | intro]).
  apply within_bind; [apply confined_prepare_test_data|]. confine.
Qed.

Lemma confined_bug_attempts (memories : list Memory) : within allowed (bug_attempts memories).
Proof.
  unfold bug_attempts, bug_loop, bug_loop_body, bug_serialize, comprehension. confine.
Qed.

Lemma confined_fix_fetch : within allowed fix_fetch.
Proof.
  unfold fix_fetch, fix_query.
  do 3 (apply within_bind; [apply within_print; now split | intro]).
  apply within_bind; [apply confined_prepare_test_data|]. confine.
Qed.

Lemma confined_fix_attempts (memories : list Memory) : within allowed (fix_attempts memories).
Proof.
  unfold fix_attempts, fix_loop, fix_loop_body, fix_serialize, comprehension. confine.
Qed.

Lemma confined_reproduce_bug : within allowed reproduce_bug_without_fix.
Proof.
  unfold reproduce_bug_without_fix.
  apply within_bind; [apply confined_bug_fetch | intro; apply confined_bug_attempts].
Qed.

Lemma confined_demonstrate_fix : within allowed demonstrate_fix_with_eager_loading.
Proof.
  unfold demonstrate_fix_with_eager_loading.
  apply within_bind; [apply confined_fix_fetch | intro; apply confined_fix_attempts].
Qed.

Lemma confined_main : within allowed main.
Proof.
  unfold main.
  do 4 (apply within_bind; [apply within_print; now split | intro]).
  apply within_try_except; [|intro; unfold main_except; confine].
  unfold main_try.
  apply within_bind; [apply within_print; now split | intro].
  apply within_bind; [apply confined_reproduce_bug | intro].
  apply within_bind; [apply within_print; now split | intro].
  apply within_bind; [apply confined_demonstrate_fix | intro].
  unfold show_the_actual_code_diff, print_summary. confine.
Qed.

End Confined.

(* --------------------------------------------------------------------- *)
(** *** The order of the steps

    Whatever the library does, a demonstration that returns has made the
    calls of its first part one after the other, none missing and none
    added, and then only serialization steps.  The proof follows the
    script call by call, taking the expected milestones from the
    front. *)

Section Order.
Context {OM : ObjectModel} {L : Library}.

Lemma marks_app (t1 t2 : list Event) : marks (t1 ++ t2) = (marks t2 ++ marks t1)%list.
Proof.
  unfold marks, history. now rewrite observe_app, rev_app_distr, filter_app.
Qed.

Lemma marks_cons (e : Event) (t : list Event) : marks (e :: t) = (marks t ++ marks [e])%list.
Proof. exact (marks_app [e] t). Qed.

Lemma marks_steps (ss : list Step) : filter milestone (map did ss) = map did ss.
Proof. induction ss as [|s ss IH]; simpl; [reflexivity | now rewrite IH]. Qed.

Lemma marks_call {A : Type} (o : Op A) (r : Outcome A) :
  marks [ev_call A o r] = map did (rev (step_of o r)).
Proof.
  unfold marks, history, observe. cbn [flat_map observe1].
  now rewrite app_nil_r, <- map_rev, marks_steps.
Qed.

Lemma marks_print (line : string) :
  marks [ev_print line] = if milestone (out line) then [out line] else [].
Proof. reflexivity. Qed.

(** The milestones of a loop's events are serialization steps. *)
Lemma marks_of_attempts (new : list Event) :
  Forall attempt_event new ->
  exists ss, marks new = map did ss /\ Forall serialization_step ss.
Proof.
  induction 1 as [|e new He _ (ss & Hss & Hok)].
  - now exists [].
  - rewrite marks_cons, Hss.
    destruct e as [line | e | A o r]; cbn [attempt_event] in He.
    + exists ss. split; [|exact Hok]. rewrite marks_print, He. apply app_nil_r.
    + exists ss. split; [|exact Hok]. apply app_nil_r.
    + exists (ss ++ rev (step_of o r))%list. split.
      * now rewrite marks_call, map_app.
      * apply Forall_app. split; [exact Hok | now apply Forall_rev].
Qed.

Lemma bind_returned {A B : Type} (m : M A) (f : A -> M B) (w w' : World) (b : B) :
  bind m f w = (Returned b, w') ->
  exists a w1, m w = (Returned a, w1) /\ f a w1 = (Returned b, w').
Proof.
  unfold bind. destruct (m w) as [[a|e] w1]; [|discriminate].
  intros H. now exists a, w1.
Qed.

Lemma emits_ret {A : Type} (a : A) : emits (ret a) [].
Proof. intros w a' w' [= _ <-]. now rewrite app_nil_r. Qed.

Lemma emits_raise {A : Type} (e : exn) (l : list Obs) : emits (@raise _ _ A e) l.
Proof. intros w a w' H. discriminate. Qed.

Lemma emits_print_silent (line : string) :
  milestone (out line) = false -> emits (print line) [].
Proof.
  intros Hm w a w' [= _ <-]. cbn [trace]. now rewrite marks_cons, marks_print, Hm.
Qed.

Lemma emits_print_mark (line : string) :
  milestone (out line) = true -> emits (print line) [out line].
Proof.
  intros Hm w a w' [= _ <-]. cbn [trace]. now rewrite marks_cons, marks_print, Hm.
Qed.

Lemma emits_call_silent {A : Type} (o : Op A) :
  (forall r, step_of o r = []) -> emits (call o) [].
Proof.
  intros Hs w a w'. unfold call.
  destruct (perform A o (lib w)) as [r st]. intros [= _ <-].
  cbn [trace]. now rewrite marks_cons, marks_call, Hs.
Qed.

Lemma emits_call_step {A : Type} (o : Op A) (s : Step) :
  (forall r, step_of o r = [s]) -> emits (call o) [did s].
Proof.
  intros Hs w a w'. unfold call.
  destruct (perform A o (lib w)) as [r st]. intros [= _ <-].
  cbn [trace]. now rewrite marks_cons, marks_call, Hs.
Qed.

Lemma emits_bind {A B : Type} (m : M A) (f : A -> M B) (l1 l2 : list Obs) :
  emits m l1 -> (forall a, emits (f a) l2) -> emits (bind m f) (l1 ++ l2).
Proof.
  intros Hm Hf w b w' H.
  apply bind_returned in H as (a & w1 & H1 & H2).
  now rewrite (Hf a _ _ _ H2), (Hm _ _ _ H1), app_assoc.
Qed.

Lemma emits_bind_silent {A B : Type} (m : M A) (f : A -> M B) (l : list Obs) :
  emits m [] -> (forall a, emits (f a) l) -> emits (bind m f) l.
Proof. intros Hm Hf. exact (emits_bind m f [] l Hm Hf). Qed.

Lemma emits_bind_step {A B : Type} (m : M A) (f : A -> M B) (x : Obs) (l : list Obs) :
  emits m [x] -> (forall a, emits (f a) l) -> emits (bind m f) (x :: l).
Proof. intros Hm Hf. exact (emits_bind m f [x] l Hm Hf). Qed.

Lemma emits_bind_assoc {A B C : Type} (m : M A) (f : A -> M B) (g : B -> M C)
    (l : list Obs) :
  emits (bind m (fun a => bind (f a) g)) l -> emits (bind (bind m f) g) l.
Proof.
  intros H w c w' Hr. apply (H w c w'). revert Hr. unfold bind.
  now destruct (m w) as [[a|e] w1].
Qed.

Lemma emits_for_each_silent {A St : Type} (xs : list A) (body : A -> St -> M St) :
  (forall x st, emits (body x st) []) -> forall st, emits (for_each xs body st) [].
Proof.
  intros Hbody. induction xs as [|x xs IH]; intros st; cbn [for_each].
  - apply emits_ret.
  - apply emits_bind_silent; [apply Hbody | exact IH].
Qed.

Lemma emits_with_SessionLocal {A : Type} (f : SessionFactory) (body : Session -> M A)
    (l : list Obs) :
  (forall s, emits (body s) l) ->
  emits (with_SessionLocal f body) (did step_open_session :: l ++ [did step_close]).
Proof.
  intros Hb. unfold with_SessionLocal.
  apply emits_bind_step; [now apply emits_call_step|]. intros s.
  intros w a w' H. unfold try_finally in H.
  destruct (body s w) as [[a1|e] w1] eqn:Hbody.
  - destruct (call (session_close s) w1) as [[u|e'] w2] eqn:Hclose; [|discriminate].
    injection H as <- <-.
    rewrite (emits_call_step (session_close s) step_close (fun _ => eq_refl) _ _ _ Hclose).
    now rewrite (Hb s _ _ _ Hbody), app_assoc.
  - destruct (call (session_close s) w1) as [[u|e'] w2]; discriminate.
Qed.

(** A demonstration: what [fetch] emits, then serialization steps. *)
Lemma emits_then_attempts {A B : Type} (fetch : M A) (attempts : A -> M B)
    (l : list Obs) (w w' : World) (b : B) :
  emits fetch l -> (forall a, within attempt_event (attempts a)) ->
  bind fetch attempts w = (Returned b, w') ->
  exists loop,
    Forall serialization_step loop
    /\ marks (trace w') = (marks (trace w) ++ l ++ map did loop)%list.
Proof.
  intros Hf Ha H. apply bind_returned in H as (a & w1 & H1 & H2).
  destruct (Ha a w1) as (new & Ht & Hnew). rewrite H2 in Ht. cbn [snd] in Ht.
  destruct (marks_of_attempts new Hnew) as (loop & Hm & Hok).
  exists loop. split; [exact Hok|].
  now rewrite Ht, marks_app, (Hf _ _ _ H1), Hm, app_assoc.
Qed.

End Order.

(** Follow a function of the script, taking the expected milestones from
    the front. *)
Ltac follow :=
  repeat first
    [ apply emits_ret
    | apply emits_raise
    | apply emits_print_silent; reflexivity
    | apply emits_print_mark; reflexivity
    | apply emits_call_silent; intro; reflexivity
    | apply emits_call_step; intro; reflexivity
    | apply emits_for_each_silent; intros
    | match goal with
      | |- emits (bind (bind _ _) _) _ => apply emits_bind_assoc
      end
    | apply emits_bind_silent; [solve [follow] | intro]
    | apply emits_bind_step; [solve [follow] | intro]
    | match goal with
      | |- emits (match ?x with _ => _ end) _ => destruct x
      | |- emits ((match ?x with _ => _ end) _) _ => destruct x; cbv beta
      | |- emits (if ?b then _ else _) _ => destruct b
      | |- emits (let _ := _ in _) _ => cbv zeta
      | |- emits ((fun _ => _) _) _ => cbv beta
      | |- forall _, _ => intro
      end ].

Ltac attempt := walk ltac:(first [exact I | reflexivity | repeat constructor]).

Section Orders.
Context {OM : ObjectModel} {L : Library}.

Lemma create_test_database_emits :
  emits create_test_database [did (step_create_engine memory_url); did step_create_all].
Proof. unfold create_test_database. follow. Qed.

Lemma setup_test_data_emits (session : Session) :
  emits (setup_test_data session) (map did setup_steps).
Proof.
  unfold setup_test_data, comprehension, list_index.
  cbn [for_each seq map setup_steps]. follow.
Qed.

Lemma prepare_test_data_emits :
  emits prepare_test_data
        (map did ([step_create_engine memory_url; step_create_all; step_open_session]
                    ++ setup_steps ++ [step_close])).
Proof.
  unfold prepare_test_data.
  apply (emits_bind _ _ [did (step_create_engine memory_url); did step_create_all]
                    (did step_open_session :: map did setup_steps ++ [did step_close]));
    [apply create_test_database_emits|].
  intros [engine SessionLocal].
  apply (emits_bind _ _ (did step_open_session :: map did setup_steps ++ [did step_close]) []);
    [|follow].
  apply emits_with_SessionLocal. intros session.
  apply (emits_bind _ _ (map did setup_steps) []); [apply setup_test_data_emits|]. follow.
Qed.

Lemma bug_fetch_emits : emits bug_fetch (map did (demo_steps [] [])).
Proof.
  unfold bug_fetch, bug_query.
  do 3 (apply emits_bind_silent; [follow | intro]).
  apply (emits_bind _ _
           (map did ([step_create_engine memory_url; step_create_all; step_open_session]
                       ++ setup_steps ++ [step_close]))
           [did step_open_session; did (step_query []); did step_close]);
    [apply prepare_test_data_emits|].
  follow.
Qed.

Lemma fix_fetch_emits :
  emits fix_fetch (map did (demo_steps [Memory_app; Memory_categories] [])).
Proof.
  unfold fix_fetch, fix_query.
  do 3 (apply emits_bind_silent; [follow | intro]).
  apply (emits_bind _ _
           (map did ([step_create_engine memory_url; step_create_all; step_open_session]
                       ++ setup_steps ++ [step_close]))
           [did step_open_session; did (step_query [Memory_app; Memory_categories]);
            did step_close]);
    [apply prepare_test_data_emits|].
  follow.
Qed.

Lemma bug_attempts_serializes (memories : list Memory) :
  within attempt_event (bug_attempts memories).
Proof.
  unfold bug_attempts, bug_loop, bug_loop_body, bug_serialize, comprehension. attempt.
Qed.

Lemma fix_attempts_serializes (memories : list Memory) :
  within attempt_event (fix_attempts memories).
Proof.
  unfold fix_attempts, fix_loop, fix_loop_body, fix_serialize, comprehension. attempt.
Qed.

Lemma show_the_actual_code_diff_emits :
  emits show_the_actual_code_diff [out diff_before; out diff_after].
Proof. unfold show_the_actual_code_diff. follow. Qed.

Lemma print_summary_emits (bug_reproduced fix_works : bool) :
  emits (print_summary bug_reproduced fix_works) [].
Proof. unfold print_summary. follow. Qed.

Lemma demo_steps_loop (joinedload : list Relationship) (loop : list Step) :
  map did (demo_steps joinedload loop)
  = (map did (demo_steps joinedload []) ++ map did loop)%list.
Proof.
  unfold demo_steps. now rewrite <- map_app.
Qed.

Lemma marks_after_print (line : string) (w : World) :
  milestone (out line) = false -> marks (trace (after_print line w)) = marks (trace w).
Proof.
  intros H. rewrite (emits_print_silent line H w tt (after_print line w) eq_refl).
  apply app_nil_r.
Qed.

Lemma marks_after_banner (w : World) : marks (trace (after_banner w)) = marks (trace w).
Proof. unfold after_banner. now rewrite !marks_after_print by reflexivity. Qed.

(** [main]'s [try] block, when it returns. *)
Lemma main_try_ordered (w w' : World) :
  main_try w = (Returned tt, w') ->
  exists bug_loop fix_loop : list Step,
    Forall serialization_step bug_loop
    /\ Forall serialization_step fix_loop
    /\ marks (trace w')
       = (marks (trace w)
            ++ map did (demo_steps [] bug_loop)
            ++ map did (demo_steps [Memory_app; Memory_categories] fix_loop)
            ++ [out diff_before; out diff_after])%list.
Proof.
  unfold main_try. intros H.
  apply bind_returned in H as (u1 & w1 & H1 & H).
  apply bind_returned in H as (bug_reproduced & w2 & H2 & H).
  apply bind_returned in H as (u3 & w3 & H3 & H).
  apply bind_returned in H as (fix_works & w4 & H4 & H).
  apply bind_returned in H as (u5 & w5 & H5 & H6).
  apply (emits_print_silent (nl ++ "Part 1: Attempting to reproduce the bug...") eq_refl) in H1.
  unfold reproduce_bug_without_fix in H2.
  apply (emits_then_attempts _ _ _ _ _ _ bug_fetch_emits bug_attempts_serializes) in H2
    as (bug_loop & Hbug & H2).
  apply (emits_print_silent (nl ++ "Part 2: Demonstrating the fix...") eq_refl) in H3.
  unfold demonstrate_fix_with_eager_loading in H4.
  apply (emits_then_attempts _ _ _ _ _ _ fix_fetch_emits fix_attempts_serializes) in H4
    as (fix_loop & Hfix & H4).
  apply show_the_actual_code_diff_emits in H5.
  apply print_summary_emits in H6.
  exists bug_loop, fix_loop. split; [exact Hbug|]. split; [exact Hfix|].
  rewrite H6, H5, H4, H3, H2, H1.
  rewrite (demo_steps_loop [] bug_loop).
  rewrite (demo_steps_loop [Memory_app; Memory_categories] fix_loop).
  now rewrite !app_nil_r, <- !app_assoc.
Qed.

End Orders.

(* ===================================================================== *)
(** ** Runs on the reference library *)
(* ===================================================================== *)

(** Each function of the script is run symbolically, from an arbitrary
    state of the reference library: the result, the state it leaves, and
    what it shows are the same whatever was there before. *)

(* --------------------------------------------------------------------- *)
(** *** Facts about stores *)

Lemma lookup_insert {A : Type} (k : nat) (v : A) (l : list (nat * A)) :
  lookup k (insert k v l) = Some v.
Proof.
  induction l as [|[k' v'] l IH]; simpl.
  - now rewrite Nat.eqb_refl.
  - destruct (Nat.eqb k k') eqn:E; simpl.
    + now rewrite Nat.eqb_refl.
    + now rewrite E.
Qed.

Lemma lookup_insert_ne {A : Type} (k k' : nat) (v : A) (l : list (nat * A)) :
  k <> k' -> lookup k (insert k' v l) = lookup k l.
Proof.
  intros Hne. induction l as [|[k0 v0] l IH]; simpl.
  - apply Nat.eqb_neq in Hne. now rewrite Hne.
  - destruct (Nat.eqb k' k0) eqn:E; simpl.
    + apply Nat.eqb_eq in E. subst k0.
      apply Nat.eqb_neq in Hne. now rewrite Hne.
    + destruct (Nat.eqb k k0); [reflexivity|apply IH].
Qed.

Lemma insert_insert {A : Type} (k : nat) (v v' : A) (l : list (nat * A)) :
  insert k v' (insert k v l) = insert k v' l.
Proof.
  induction l as [|[k0 v0] l IH]; simpl.
  - now rewrite Nat.eqb_refl.
  - destruct (Nat.eqb k k0) eqn:E; simpl.
    + now rewrite Nat.eqb_refl.
    + rewrite E. now rewrite IH.
Qed.

Lemma insert_lookup {A : Type} (k : nat) (v : A) (l : list (nat * A)) :
  lookup k l = Some v -> insert k v l = l.
Proof.
  induction l as [|[k0 v0] l IH]; simpl; [discriminate|].
  destruct (Nat.eqb k k0) eqn:E.
  - intros [= ->]. apply Nat.eqb_eq in E. now subst.
  - intros H. now rewrite IH.
Qed.

(* --------------------------------------------------------------------- *)
(** *** Symbolic execution *)

Arguments try_except {OM L A} body handler w /.
Arguments try_finally {OM L A} body cleanup w /.
Arguments with_SessionLocal {OM L A} SessionLocal body w /.
Arguments create_test_database : simpl never.
Arguments setup_test_data : simpl never.
Arguments prepare_test_data : simpl never.
Arguments bug_fetch : simpl never.
Arguments fix_fetch : simpl never.
Arguments reproduce_bug_without_fix : simpl never.
Arguments demonstrate_fix_with_eager_loading : simpl never.
Arguments observe : simpl never.
#[local] Arguments Nat.eqb : simpl never.

(** Decide a comparison of two names drawn from the same counter. *)
Ltac resolve_eqb :=
  match goal with
  | |- context [Nat.eqb ?a ?b] =>
      first [ replace (Nat.eqb a b) with true by (symmetry; apply Nat.eqb_eq; lia)
            | replace (Nat.eqb a b) with false by (symmetry; apply Nat.eqb_neq; lia) ]
  end.

(** One round: run the calls that compute, open the call that is stuck
    on a store, and read the store. *)
Ltac exec1 :=
  cbn;
  unfold ref_create_all, ref_session_add, ref_session_flush, ref_session_commit,
         ref_session_close, ref_query_all, ref_Memory_get_app, ref_Memory_get_categories,
         ref_Memory_categories_append, attached_db, load_memory, app_of, categories_of;
  cbn;
  rewrite ?lookup_insert, ?insert_insert, ?Nat.eqb_refl;
  repeat resolve_eqb.

Ltac exec := repeat (progress exec1).

(** Close a goal about the observations of the trace reached, from the
    observations of the traces the lemmas used so far have produced. *)
Ltac observed :=
  repeat match goal with
         | |- _ => rewrite observe_cons
         | H : observe _ = _ |- _ => rewrite H
         end;
  reflexivity.

(* --------------------------------------------------------------------- *)
(** *** The functions of the script *)

Lemma create_test_database_run (t : list Event) (st : RefLibState) :
  exists t',
    create_test_database (mk_World t st)
    = (Returned (next_handle st, mk_SessionFactoryObj false false (next_handle st)),
       mk_World t'
         (set_next_handle (1 + next_handle st)
            (set_engines (insert (next_handle st)
                            (mk_EngineState memory_url (with_schema empty_database))
                            (engines st)) st)))
    /\ observe t' = (map did [step_create_all; step_create_engine memory_url] ++ observe t)%list.
Proof.
  destruct st as [h n c es sss fs env av].
  unfold create_test_database. exec.
  eexists. split; [reflexivity|]. observed.
Qed.

Lemma setup_test_data_run (t : list Event) (st : RefLibState) (s : nat)
    (ss : SessionState) (eng : EngineState) :
  lookup s (sessions st) = Some ss ->
  ss_pending ss = [] ->
  ss_tx ss = None ->
  lookup (ss_bind ss) (engines st) = Some eng ->
  has_schema (eng_db eng) = true ->
  exists t',
    setup_test_data s (mk_World t st)
    = (Returned (next_uuid st, 1 + next_uuid st,
                 [4 + next_uuid st; 5 + next_uuid st; 6 + next_uuid st]),
       mk_World t' (after_setup s ss eng st))
    /\ observe t' = (rev (map did setup_steps) ++ observe t)%list.
Proof.
  destruct st as [h n c es sss fs env av].
  destruct ss as [b ep pend tx], eng as [url [sch us aps cs ms mcs]].
  cbn [sessions engines ss_pending ss_tx ss_bind eng_db has_schema].
  intros Hs -> -> He ->.
  rewrite <- (insert_lookup _ _ _ Hs), <- (insert_lookup _ _ _ He).
  unfold setup_test_data, after_setup.
  exec.
  eexists. split.
  - rewrite (insert_lookup _ _ _ Hs), (insert_lookup _ _ _ He).
    unfold with_test_data, test_user, test_app, test_categories, test_rows,
           test_memory_row, test_links.
    cbn.
    rewrite <- !app_assoc. cbn.
    reflexivity.
  - observed.
Qed.

Ltac use_setup :=
  match goal with
  | |- context [setup_test_data ?s (mk_World ?t ?st)] =>
      let t' := fresh "t" in
      let Heq := fresh "Heq" in
      let Hobs := fresh "Hobs" in
      edestruct (setup_test_data_run t st s) as (t' & Heq & Hobs);
      [ cbn; apply lookup_insert | reflexivity | reflexivity
      | cbn; apply lookup_insert | reflexivity
      | rewrite Heq; clear Heq; unfold after_setup ]
  end.

Lemma prepare_test_data_run (t : list Event) (st : RefLibState) :
  exists t',
    prepare_test_data (mk_World t st)
    = (Returned (mk_SessionFactoryObj false false (next_handle st),
                 (next_uuid st, 1 + next_uuid st,
                  [4 + next_uuid st; 5 + next_uuid st; 6 + next_uuid st])),
       mk_World t' (after_prepare st))
    /\ observe t' = (rev prepare_transcript ++ observe t)%list.
Proof.
  destruct st as [h n c es sss fs env av].
  unfold prepare_test_data.
  destruct (create_test_database_run t (mk_RefLibState h n c es sss fs env av))
    as (t1 & Heq1 & Hobs1).
  cbn. rewrite Heq1. clear Heq1.
  exec.
  use_setup.
  exec.
  eexists. split; [reflexivity|]. observed.
Qed.

Ltac use_prepare :=
  match goal with
  | |- context [prepare_test_data (mk_World ?t ?st)] =>
      let t' := fresh "t" in
      let Heq := fresh "Heq" in
      let Hobs := fresh "Hobs" in
      destruct (prepare_test_data_run t st) as (t' & Heq & Hobs);
      rewrite Heq; clear Heq; unfold after_prepare
  end.



Lemma bug_fetch_run (t : list Event) (st : RefLibState) :
  exists t',
    bug_fetch (mk_World t st) = (Returned (bug_memories st), mk_World t' (after_demo st))
    /\ observe t' = (rev bug_fetch_transcript ++ observe t)%list.
Proof.
  destruct st as [h n c es sss fs env av].
  unfold bug_fetch, bug_query. cbn.
  use_prepare.
  exec.
  eexists. split; [reflexivity|]. observed.
Qed.

Lemma fix_fetch_run (t : list Event) (st : RefLibState) :
  exists t',
    fix_fetch (mk_World t st) = (Returned (fix_memories st), mk_World t' (after_demo st))
    /\ observe t' = (rev fix_fetch_transcript ++ observe t)%list.
Proof.
  destruct st as [h n c es sss fs env av].
  unfold fix_fetch, fix_query. cbn.
  use_prepare.
  exec.
  eexists. split; [reflexivity|]. observed.
Qed.

Lemma reproduce_bug_run (t : list Event) (st : RefLibState) :
  exists t',
    reproduce_bug_without_fix (mk_World t st) = (Returned true, mk_World t' (after_demo st))
    /\ observe t' = (rev bug_transcript ++ observe t)%list.
Proof.
  unfold reproduce_bug_without_fix. cbn.
  destruct (bug_fetch_run t st) as (t1 & -> & Hobs1).
  destruct st as [h n c es sss fs env av].
  unfold bug_attempts, bug_loop, bug_loop_body, bug_serialize, bug_memories, after_demo.
  exec.
  eexists. split; [reflexivity|]. observed.
Qed.

Lemma demonstrate_fix_run (t : list Event) (st : RefLibState) :
  exists t',
    demonstrate_fix_with_eager_loading (mk_World t st)
    = (Returned true, mk_World t' (after_demo st))
    /\ observe t' = (rev fix_transcript ++ observe t)%list.
Proof.
  unfold demonstrate_fix_with_eager_loading. cbn.
  destruct (fix_fetch_run t st) as (t1 & -> & Hobs1).
  destruct st as [h n c es sss fs env av].
  unfold fix_attempts, fix_loop, fix_loop_body, fix_serialize, fix_memories, after_demo.
  exec.
  eexists. split; [reflexivity|]. observed.
Qed.

Lemma main_run (t : list Event) (st : RefLibState) :
  exists t',
    main (mk_World t st) = (Returned tt, mk_World t' (after_demo (after_demo st)))
    /\ observe t' = (rev main_transcript ++ observe t)%list.
Proof.
  unfold main, main_try. cbn.
  match goal with
  | |- context [reproduce_bug_without_fix (mk_World ?t0 st)] =>
      destruct (reproduce_bug_run t0 st) as (t1 & -> & Hobs1)
  end.
  cbn.
  match goal with
  | |- context [demonstrate_fix_with_eager_loading (mk_World ?t0 ?st0)] =>
      destruct (demonstrate_fix_run t0 st0) as (t2 & -> & Hobs2)
  end.
  cbn.
  eexists. split; [reflexivity|]. observed.
Qed.

(* --------------------------------------------------------------------- *)
(** *** Serializing one memory *)

(** A memory whose application was not loaded and whose session is gone
    cannot be serialized the way the bug demonstration does it: reading
    [memory.app] raises, whatever else the library holds. *)
Lemma bug_serialize_detached (t : list Event) (st : RefLibState) (m : MemoryObj) :
  mo_app m = None -> attached_db st m = None ->
  exists t',
    bug_serialize m (mk_World t st) = (Raised (DetachedInstanceError "app"), mk_World t' st)
    /\ observe t' = (did (step_read Memory_app false) :: observe t)%list.
Proof.
  destruct m as [row app cats owner]. cbn. intros -> Hdb.
  unfold bug_serialize. cbn. unfold ref_Memory_get_app. cbn. rewrite Hdb.
  eexists. split; [reflexivity|]. observed.
Qed.

Lemma get_categories_detached (t : list Event) (st : RefLibState) (m : MemoryObj) :
  mo_categories m = None -> attached_db st m = None ->
  fst (call (Memory_get_categories m) (mk_World t st))
  = Raised (DetachedInstanceError "categories").
Proof.
  intros Hc Hdb. cbn. unfold ref_Memory_get_categories. now rewrite Hc, Hdb.
Qed.

(** [[cat.name for cat in cs]] *)
Lemma category_names_run (cs : list CategoryRow) :
  forall (acc : list string) (t : list Event) (st : RefLibState),
  exists t',
    for_each cs (fun cat acc => y <- call (Category_name cat) ;; ret (acc ++ [y])%list) acc
             (mk_World t st)
    = (Returned (acc ++ map category_name_col cs)%list, mk_World t' st)
    /\ observe t' = observe t.
Proof.
  induction cs as [|c cs IH]; intros acc t st; cbn.
  - eexists. rewrite app_nil_r. split; reflexivity.
  - match goal with
    | |- context [for_each cs ?f ?a (mk_World ?t0 st)] =>
        destruct (IH a t0 st) as (t' & Heq & Hobs)
    end.
    exists t'. rewrite Heq, <- app_assoc. split; [reflexivity|].
    rewrite Hobs. reflexivity.
Qed.

(** A memory whose application and categories were loaded with it is
    serialized the way the fix does it in every state of the library:
    no session is needed. *)
Lemma fix_serialize_loaded (t : list Event) (st : RefLibState) (m : MemoryObj)
    (a : AppRow) (cs : list CategoryRow) :
  mo_app m = Some (Some a) -> mo_categories m = Some cs ->
  exists t',
    fix_serialize m (mk_World t st)
    = (Returned (mk_Response (memory_pk (mo_row m)) (memory_content_col (mo_row m))
                   (memory_created_at_col (mo_row m))
                   (RefState_value (memory_state_col (mo_row m)))
                   (memory_app_id_col (mo_row m)) (Some (app_name_col a))
                   (map category_name_col cs) (memory_metadata_col (mo_row m))),
       mk_World t' st)
    /\ observe t'
       = (map did [step_MemoryResponse true; step_read Memory_categories true;
                   step_read Memory_app true; step_read Memory_app true] ++ observe t)%list.
Proof.
  destruct m as [row app cats owner]. cbn. intros -> ->.
  unfold fix_serialize, comprehension. cbn.
  match goal with
  | |- context [for_each cs ?f ?acc (mk_World ?t0 st)] =>
      destruct (category_names_run cs acc t0 st) as (t1 & Heq & Hobs)
  end.
  rewrite Heq. cbn.
  eexists. split; [reflexivity|]. observed.
Qed.

Lemma bug_memories_detached (st : RefLibState) (m : MemoryObj) :
  In m (bug_memories st) ->
  mo_app m = None /\ mo_categories m = None /\ attached_db (after_demo st) m = None.
Proof.
  destruct st as [h n c es sss fs env av].
  unfold bug_memories, after_demo, attached_db. cbn.
  intros [<-|[<-|[<-|[]]]]; cbn; rewrite lookup_insert; cbn; repeat resolve_eqb; auto.
Qed.

Lemma fix_memories_loaded (st : RefLibState) (m : MemoryObj) :
  In m (fix_memories st) ->
  exists cs, mo_app m = Some (Some (test_app (next_uuid st))) /\ mo_categories m = Some cs.
Proof.
  unfold fix_memories. cbn.
  intros [<-|[<-|[<-|[]]]]; cbn; eexists; split; reflexivity.
Qed.

Lemma engines_after_demo (st : RefLibState) (k : nat) (eng : EngineState) :
  lookup k (engines (after_demo st)) = Some eng ->
  lookup k (engines st) = Some eng \/ eng_url eng = memory_url.
Proof.
  unfold after_demo. cbn [engines]. intros H.
  destruct (Nat.eq_dec k (next_handle st)) as [->|Hne].
  - rewrite lookup_insert in H. injection H as <-. now right.
  - rewrite lookup_insert_ne in H by exact Hne. now left.
Qed.

(* ===================================================================== *)
(** ** The properties *)
(* ===================================================================== *)

(** C1. On the reference library, from any world: the query of the bug
    demonstration returns three memories, and after the session is closed
    serializing any of them raises [DetachedInstanceError] at
    [memory.app] (reading [memory.categories] would raise it too), so
    [reproduce_bug_without_fix] returns [True]; the query of the fix
    demonstration, with both [joinedload] options, returns three memories
    each of which serializes after the session is closed, so
    [demonstrate_fix_with_eager_loading] returns [True]. *)
Theorem lazy_load_after_close_raises_eager_load_does_not
    (w : @World RefObjects Reference) :
  (exists memories w1,
      bug_fetch w = (Returned memories, w1)
      /\ length memories = 3
      /\ (forall memory t, In memory memories ->
            (exists t', bug_serialize memory (mk_World t (lib w1))
                        = (Raised (DetachedInstanceError "app"), mk_World t' (lib w1)))
            /\ fst (call (Memory_get_categories memory) (mk_World t (lib w1)))
               = Raised (DetachedInstanceError "categories"))
      /\ fst (reproduce_bug_without_fix w) = Returned true)
  /\
  (exists memories w1,
      fix_fetch w = (Returned memories, w1)
      /\ length memories = 3
      /\ (forall memory t, In memory memories ->
            exists response t',
              fix_serialize memory (mk_World t (lib w1))
              = (Returned response, mk_World t' (lib w1)))
      /\ fst (demonstrate_fix_with_eager_loading w) = Returned true).
Proof.
  destruct w as [t0 st]. split.
  - destruct (bug_fetch_run t0 st) as (t1 & Heq & _).
    destruct (reproduce_bug_run t0 st) as (t2 & Hrun & _).
    do 2 eexists.
    split; [exact Heq | split; [reflexivity | split; [| now rewrite Hrun]]].
    intros memory t Hin. cbn [lib].
    destruct (bug_memories_detached st memory Hin) as (Happ & Hcs & Hdb).
    split.
    + destruct (bug_serialize_detached t (after_demo st) memory Happ Hdb) as (t' & Hs & _).
      now exists t'.
    + now apply get_categories_detached.
  - destruct (fix_fetch_run t0 st) as (t1 & Heq & _).
    destruct (demonstrate_fix_run t0 st) as (t2 & Hrun & _).
    do 2 eexists.
    split; [exact Heq | split; [reflexivity | split; [| now rewrite Hrun]]].
    intros memory t Hin. cbn [lib].
    destruct (fix_memories_loaded st memory Hin) as (cs & Happ & Hcs).
    destruct (fix_serialize_loaded t (after_demo st) memory _ cs Happ Hcs) as (t' & Hs & _).
    eexists. exists t'. exact Hs.
Qed.



(** With a [KeyboardInterrupt] instead, which is no [Exception], it is
    not. *)
Example exit_code_after_interrupt :
  exit_code (fst (main (offline_world keyboard_interrupt))) = 1%Z.
Proof. reflexivity. Qed.






(** C5. For every library: when [main]'s [try] block returns, the calls
    and diff prints of [main] are, in this order: the bug demonstration
    (engine at [sqlite:///:memory:], schema, session, seven adds with
    their flushes, commit, close; session, query without [joinedload],
    close, then only reads of relationships and [MemoryResponse] calls),
    the fix demonstration (the same with both [joinedload] options), the
    diff before, the diff after.  On the reference library, from any
    world, [main] returns, and the loop of the bug demonstration is three
    failed reads of [memory.app], that of the fix demonstration per
    memory the reads and the [MemoryResponse], all successful. *)
Theorem main_runs_the_steps_in_order :
  (forall (OM : ObjectModel) (L : Library) (w w' : World),
      main_try (after_banner w) = (Returned tt, w') ->
      exists bug_loop fix_loop : list Step,
        Forall serialization_step bug_loop
        /\ Forall serialization_step fix_loop
        /\ marks (trace (snd (main w)))
           = (marks (trace w)
                ++ map did (demo_steps [] bug_loop)
                ++ map did (demo_steps [Memory_app; Memory_categories] fix_loop)
                ++ [out diff_before; out diff_after])%list)
  /\ (forall w : @World RefObjects Reference,
        fst (main w) = Returned tt
        /\ marks (trace (snd (main w)))
           = (marks (trace w)
                ++ map did (demo_steps [] bug_loop_steps)
                ++ map did (demo_steps [Memory_app; Memory_categories] fix_loop_steps)
                ++ [out diff_before; out diff_after])%list).
Proof.
  split.
  - intros OM L w w' Htry.
    pose proof (main_outcome w) as Hmain. rewrite Htry in Hmain. rewrite Hmain. cbn [snd].
    rewrite <- (marks_after_banner w). exact (main_try_ordered _ _ Htry).
  - intros [t st].
    destruct (main_run t st) as (t' & Heq & Hobs).
    rewrite Heq. cbn [fst snd trace]. split; [reflexivity|].
    unfold marks. rewrite (history_extended _ _ _ Hobs), filter_app.
    apply f_equal. vm_compute. reflexivity.
Qed.

(** On the reference library, from the world of a fresh process, the
    [try] block returns. *)
Lemma main_runs_the_steps_witness :
  main_try (after_banner (fresh_world [] [] []))
  = (Returned tt, snd (main (fresh_world [] [] [])))
  /\ exists bug_loop fix_loop : list Step,
       Forall serialization_step bug_loop
       /\ Forall serialization_step fix_loop
       /\ marks (trace (snd (main (fresh_world [] [] []))))
          = (map did (demo_steps [] bug_loop)
               ++ map did (demo_steps [Memory_app; Memory_categories] fix_loop)
               ++ [out diff_before; out diff_after])%list.
Proof.
  split; [vm_compute; reflexivity|].
  apply (proj1 main_runs_the_steps_in_order RefObjects Reference (fresh_world [] [] [])
               (snd (main (fresh_world [] [] [])))).
  vm_compute. reflexivity.
Defined.

(** C6. For every library: all that [main] adds to the trace are
    prints, tracebacks, and calls none of which sets an environment
    variable or creates an engine at a URL other than
    [sqlite:///:memory:].  On the reference library, from any world:
    [main] leaves the database files, the environment variables and the
    command line as they were, and every engine that exists afterwards is
    one that existed before, unchanged, or an in-memory one. *)
Theorem main_touches_only_the_console_and_memory_databases :
  (forall (OM : ObjectModel) (L : Library) (w : World),
      exists new,
        trace (snd (main w)) = (new ++ trace w)%list /\ Forall writes_nothing_outside new)
  /\ (forall (w : @World RefObjects Reference),
        let w' := snd (main w) in
        files (lib w') = files (lib w)
        /\ environ (lib w') = environ (lib w)
        /\ argv (lib w') = argv (lib w)
        /\ (forall k eng, lookup k (engines (lib w')) = Some eng ->
               lookup k (engines (lib w)) = Some eng \/ eng_url eng = memory_url)).
Proof.
  split.
  - intros OM L w. destruct (confined_main w) as (new & Ht & Hok).
    exists new. split; [exact Ht|].
    eapply Forall_impl; [|exact Hok]. now intros e [_ H].
  - intros [t st].
    destruct (main_run t st) as (t' & Heq & Hobs).
    cbv zeta. rewrite Heq. cbn [fst snd trace lib].
    split; [reflexivity | split; [reflexivity | split; [reflexivity|]]].
    intros k eng H.
    apply engines_after_demo in H. destruct H as [H|H]; [|now right].
    apply engines_after_demo in H. exact H.
Qed.

(** An engine at a file URL, by contrast, writes its file when its
    tables are created. *)
Example file_engine_writes_its_file :
  let run := (engine <- call (create_engine "sqlite:///./openmemory.db" false) ;;
              call (Base_metadata_create_all engine)) (fresh_world [] [] []) in
  files (lib (snd run)) = [("sqlite:///./openmemory.db", with_schema empty_database)].
Proof. reflexivity. Qed.


(** A call of [os.getenv], by contrast, returns what the environment
    holds. *)
Example getenv_reads_the_environment :
  fst (call (os_getenv "DATABASE_URL") (fresh_world [] [("DATABASE_URL", "x")] []))
  = Returned (Some "x")
  /\ fst (call (os_getenv "DATABASE_URL") (fresh_world [] [] [])) = Returned None.
Proof. split; reflexivity. Qed.

(** C8. On the reference library: called with a session that has
    nothing pending and no transaction open, on an engine whose tables
    exist, [setup_test_data] returns the user id, the app id and the ids
    of three memories in insertion order, after a commit that adds to the
    engine's data exactly: one user; one app owned by that user; two
    categories; three memories, all active and of that user and app; a
    link from the first memory to the first category and from the second
    to the second, and none from the third. *)
Theorem setup_test_data_inserts_the_test_rows
    (t : list Event) (st : RefLibState) (s : nat) (ss : SessionState) (eng : EngineState) :
  lookup s (sessions st) = Some ss ->
  ss_pending ss = [] ->
  ss_tx ss = None ->
  lookup (ss_bind ss) (engines st) = Some eng ->
  has_schema (eng_db eng) = true ->
  let n := next_uuid st in
  let old := eng_db eng in
  exists w' db,
    setup_test_data s (mk_World t st) = (Returned (n, 1 + n, [4 + n; 5 + n; 6 + n]), w')
    /\ lookup (ss_bind ss) (engines (lib w')) = Some (mk_EngineState (eng_url eng) db)
    /\ lookup s (sessions (lib w')) = Some (mk_SessionState (ss_bind ss) (ss_epoch ss) [] None)
    /\ history (trace w') = (history t ++ map did setup_steps)%list
    /\ users db = (users old ++ [mk_UserRow n "test_user_repro" "test@repro.com"])%list
    /\ apps db = (apps old ++ [mk_AppRow (1 + n) "Test App for Bug Reproduction" n])%list
    /\ categories db
       = (categories old
            ++ [mk_CategoryRow (2 + n) "category_1"; mk_CategoryRow (3 + n) "category_2"])%list
    /\ memories db = (memories old ++ test_rows n (clock st))%list
    /\ map memory_pk (test_rows n (clock st)) = [4 + n; 5 + n; 6 + n]
    /\ Forall (fun r => memory_state_col r = st_active
                        /\ memory_user_id r = n /\ memory_app_id_col r = 1 + n)
              (test_rows n (clock st))
    /\ memory_categories db = (memory_categories old ++ [(4 + n, 2 + n); (5 + n, 3 + n)])%list.
Proof.
  intros Hs Hp Htx He Hsch n old.
  destruct (setup_test_data_run t st s ss eng Hs Hp Htx He Hsch) as (t' & Heq & Hobs).
  exists (@mk_World RefObjects Reference t' (after_setup s ss eng st)),
         (with_test_data n (clock st) old).
  split; [exact Heq|].
  cbn [lib trace]. unfold after_setup. cbn [engines sessions].
  rewrite !lookup_insert.
  split; [reflexivity | split; [reflexivity | split]].
  - apply history_extended. now rewrite <- map_rev.
  - repeat split. repeat constructor.
Qed.

(** The state in which the script calls [setup_test_data], after
    [create_test_database()] and [SessionLocal()] in a world where
    nothing has happened, is such a state; there the ids are 0, 1 and
    4, 5, 6. *)
Lemma setup_test_data_inserts_witness :
  lib (snd ((db <- create_test_database ;; call (call_SessionLocal (snd db)))
              (fresh_world [] [] [])))
  = ready_state
  /\ exists w',
       setup_test_data 1 (@mk_World RefObjects Reference [] ready_state)
       = (Returned (0, 1, [4; 5; 6]), w').
Proof.
  split; [reflexivity|].
  destruct (setup_test_data_inserts_the_test_rows [] ready_state 1
              (mk_SessionState 0 0 [] None)
              (mk_EngineState memory_url (with_schema empty_database))
              eq_refl eq_refl eq_refl eq_refl eq_refl) as (w' & db & H & _).
  exists w'. exact H.
Defined.

(** C9. On the reference library, from any world [w]: the bug
    demonstration creates the engine [next_handle] of [w] and the fix
    demonstration, run after it, creates another; each holds the test
    data of its own demonstration; after both, the first engine holds
    exactly what the bug demonstration left in it; and the fix
    demonstration returns the same way and shows the same, run after the
    bug demonstration or from any other world [w0]. *)
Theorem demonstrations_share_no_database (w w0 : @World RefObjects Reference) :
  let wb := snd (reproduce_bug_without_fix w) in
  let wf := snd (demonstrate_fix_with_eager_loading wb) in
  let hb := next_handle (lib w) in
  let hf := next_handle (lib wb) in
  hb <> hf
  /\ lookup hb (engines (lib wb))
     = Some (mk_EngineState memory_url
               (with_test_data (next_uuid (lib w)) (clock (lib w)) (with_schema empty_database)))
  /\ lookup hf (engines (lib wf))
     = Some (mk_EngineState memory_url
               (with_test_data (next_uuid (lib wb)) (clock (lib wb)) (with_schema empty_database)))
  /\ lookup hb (engines (lib wf)) = lookup hb (engines (lib wb))
  /\ fst (demonstrate_fix_with_eager_loading wb) = fst (demonstrate_fix_with_eager_loading w0)
  /\ (exists new,
        history (trace wf) = (history (trace wb) ++ new)%list
        /\ history (trace (snd (demonstrate_fix_with_eager_loading w0)))
           = (history (trace w0) ++ new)%list).
Proof.
  destruct w as [t st], w0 as [t0 st0].
  destruct (reproduce_bug_run t st) as (tb & Hb & _).
  cbv zeta. rewrite Hb. cbn [fst snd lib trace].
  destruct (demonstrate_fix_run tb (after_demo st)) as (tf & Hf & Hobsf).
  destruct (demonstrate_fix_run t0 st0) as (tf0 & Hf0 & Hobsf0).
  rewrite Hf, Hf0. cbn [fst snd lib trace].
  unfold after_demo. cbn [next_handle engines next_uuid clock].
  rewrite !lookup_insert.
  rewrite lookup_insert_ne by lia. rewrite lookup_insert.
  split; [lia | split; [reflexivity | split; [reflexivity | split; [reflexivity | split]]]].
  - reflexivity.
  - exists fix_transcript. split; now apply history_extended.
Qed.


(* ===================================================================== *)
(** ** Further properties of the script, for every library *)
(* ===================================================================== *)

(* --------------------------------------------------------------------- *)
(** *** Where exceptions come from *)

Section Origin.
Context {OM : ObjectModel} {L : Library}.
Variable allow : exn -> Prop.

Lemma origin_ret {A : Type} (a : A) : raises_from_calls allow (ret a).
Proof. intros w. exists []. split; [reflexivity | discriminate]. Qed.

Lemma origin_raise {A : Type} (e : exn) : allow e -> raises_from_calls allow (@raise _ _ A e).
Proof. intros He w. exists []. split; [reflexivity|]. intros e' [= <-]. now left. Qed.

Lemma origin_print (line : string) : raises_from_calls allow (print line).
Proof. intros w. exists [ev_print line]. split; [reflexivity | discriminate]. Qed.

Lemma origin_traceback (e : exn) : raises_from_calls allow (traceback_print_exc e).
Proof. intros w. exists [ev_traceback e]. split; [reflexivity | discriminate]. Qed.

Lemma origin_call {A : Type} (o : Op A) : raises_from_calls allow (call o).
Proof.
  intros w. unfold call. destruct (perform A o (lib w)) as [r st].
  exists [ev_call A o r]. split; [reflexivity|].
  cbn [fst]. intros e ->. right. exists A, o. now left.
Qed.

Lemma origin_bind {A B : Type} (m : M A) (f : A -> M B) :
  raises_from_calls allow m -> (forall a, raises_from_calls allow (f a)) ->
  raises_from_calls allow (bind m f).
Proof.
  intros Hm Hf w. unfold bind.
  destruct (Hm w) as (new1 & Ht1 & Hr1).
  destruct (m w) as [[a|e] w1]; cbn [fst snd] in *.
  - destruct (Hf a w1) as (new2 & Ht2 & Hr2).
    exists (new2 ++ new1)%list. rewrite Ht2, Ht1, app_assoc. split; [reflexivity|].
    intros e He. destruct (Hr2 e He) as [Hallow | (T & o & Hin)]; [now left|].
    right. exists T, o. apply in_or_app. now left.
  - exists new1. split; [exact Ht1|]. intros e' [= <-]. exact (Hr1 e eq_refl).
Qed.

Lemma origin_ret_bind {A B : Type} (a : A) (f : A -> M B) :
  raises_from_calls allow (f a) -> raises_from_calls allow (bind (ret a) f).
Proof. intros H w. exact (H w). Qed.

Lemma origin_bind_assoc {A B C : Type} (m : M A) (f : A -> M B) (g : B -> M C) :
  raises_from_calls allow (bind m (fun a => bind (f a) g)) ->
  raises_from_calls allow (bind (bind m f) g).
Proof.
  intros H w. destruct (H w) as (new & Ht & Hr). exists new.
  unfold bind in *. destruct (m w) as [[a|e] w1]; now split.
Qed.



Lemma origin_for_each {A St : Type} (xs : list A) (body : A -> St -> M St) :
  (forall x st, raises_from_calls allow (body x st)) ->
  forall st, raises_from_calls allow (for_each xs body st).
Proof.
  intros Hbody. induction xs as [|x xs IH]; intros st; cbn [for_each].
  - apply origin_ret.
  - apply origin_bind; [apply Hbody | exact IH].
Qed.


End Origin.

(** Walk through a function of the script, carrying the values that
    [ret] hands on. *)
Ltac trace_origin :=
  repeat match goal with
    | |- raises_from_calls _ (ret _) => apply origin_ret
    | |- raises_from_calls _ (print _) => apply origin_print
    | |- raises_from_calls _ (traceback_print_exc _) => apply origin_traceback
    | |- raises_from_calls _ (call _) => apply origin_call
    | |- raises_from_calls _ (raise _) => apply origin_raise; reflexivity
    | |- raises_from_calls _ (bind (bind _ _) _) => apply origin_bind_assoc
    | |- raises_from_calls _ (bind (ret _) _) => apply origin_ret_bind; cbv beta
    | |- raises_from_calls _ (bind (raise _) _) =>
        apply origin_bind; [apply origin_raise; reflexivity | intro]
    | |- raises_from_calls _ (bind (call _) _) => apply origin_bind; [apply origin_call | intro]
    | |- raises_from_calls _ (bind (print _) _) => apply origin_bind; [apply origin_print | intro]
    | |- raises_from_calls _ (bind (traceback_print_exc _) _) =>
        apply origin_bind; [apply origin_traceback | intro]
    | |- raises_from_calls _ (bind (if _ then _ else _) _) =>
        progress (cbn [Nat.ltb Nat.leb]; cbv iota)
    | |- raises_from_calls _ (bind (match nth_error _ _ with _ => _ end) _) =>
        progress (cbn [nth_error app]; cbv iota)
    | |- raises_from_calls _ (bind (let _ := _ in _) _) => cbv zeta
    | |- raises_from_calls _ (let _ := _ in _) => cbv zeta
    | |- raises_from_calls _ (bind (for_each _ _ _) _) =>
        apply origin_bind; [apply origin_for_each; intros | intro]
    | |- raises_from_calls _ (for_each _ _ _) => apply origin_for_each; intros
    | |- raises_from_calls _ (match ?x with _ => _ end) => destruct x
    | |- raises_from_calls _ ((match ?x with _ => _ end) _) => destruct x; cbv beta
    | |- raises_from_calls _ (bind (match ?x with _ => _ end) _) => destruct x
    | |- raises_from_calls _ ((fun _ => _) _) => cbv beta
    | |- raises_from_calls _ ((fun _ => _) _ _) => cbv beta
    end.

Section Origins.
Context {OM : ObjectModel} {L : Library}.

Lemma origin_setup_test_data (session : Session) :
  raises_from_calls (fun _ => False) (setup_test_data session).
Proof.
  unfold setup_test_data, list_index, comprehension.
  cbn [for_each seq]. trace_origin.
Qed.












End Origins.

(* --------------------------------------------------------------------- *)
(** *** Code without handlers stops at the call that raises *)

Section Stop.
Context {OM : ObjectModel} {L : Library}.

Lemma stops_ret {A : Type} (a : A) : stops_at_raise (ret a).
Proof. intros w e w' H. discriminate. Qed.

Lemma stops_print (line : string) : stops_at_raise (print line).
Proof. intros w e w' H. discriminate. Qed.

Lemma stops_call {A : Type} (o : Op A) : stops_at_raise (call o).
Proof.
  intros w e w'. unfold call. destruct (perform A o (lib w)) as [[a|e0] st]; [discriminate|].
  intros [= <- <-]. now exists A, o, (trace w).
Qed.

Lemma stops_bind {A B : Type} (m : M A) (f : A -> M B) :
  stops_at_raise m -> (forall a, stops_at_raise (f a)) -> stops_at_raise (bind m f).
Proof.
  intros Hm Hf w e w'. unfold bind.
  destruct (m w) as [[a|e0] w1] eqn:Hmw.
  - apply Hf.
  - intros [= <- <-]. exact (Hm _ _ _ Hmw).
Qed.

Lemma stops_ret_bind {A B : Type} (a : A) (f : A -> M B) :
  stops_at_raise (f a) -> stops_at_raise (bind (ret a) f).
Proof. intros H w. exact (H w). Qed.

Lemma stops_bind_assoc {A B C : Type} (m : M A) (f : A -> M B) (g : B -> M C) :
  stops_at_raise (bind m (fun a => bind (f a) g)) -> stops_at_raise (bind (bind m f) g).
Proof.
  intros H w e w' Hr. apply (H w e w'). revert Hr. unfold bind.
  now destruct (m w) as [[a|e0] w1].
Qed.

Lemma stops_for_each {A St : Type} (xs : list A) (body : A -> St -> M St) :
  (forall x st, stops_at_raise (body x st)) -> forall st, stops_at_raise (for_each xs body st).
Proof.
  intros Hbody. induction xs as [|x xs IH]; intros st; cbn [for_each].
  - apply stops_ret.
  - apply stops_bind; [apply Hbody | exact IH].
Qed.

End Stop.

Ltac trace_stop :=
  repeat match goal with
    | |- stops_at_raise (ret _) => apply stops_ret
    | |- stops_at_raise (print _) => apply stops_print
    | |- stops_at_raise (call _) => apply stops_call
    | |- stops_at_raise (bind (bind _ _) _) => apply stops_bind_assoc
    | |- stops_at_raise (bind (ret _) _) => apply stops_ret_bind; cbv beta
    | |- stops_at_raise (bind (call _) _) => apply stops_bind; [apply stops_call | intro]
    | |- stops_at_raise (bind (print _) _) => apply stops_bind; [apply stops_print | intro]
    | |- stops_at_raise (bind (if _ then _ else _) _) =>
        progress (cbn [Nat.ltb Nat.leb]; cbv iota)
    | |- stops_at_raise (bind (match nth_error _ _ with _ => _ end) _) =>
        progress (cbn [nth_error app]; cbv iota)
    | |- stops_at_raise (bind (let _ := _ in _) _) => cbv zeta
    | |- stops_at_raise (let _ := _ in _) => cbv zeta
    | |- stops_at_raise (bind (for_each _ _ _) _) =>
        apply stops_bind; [apply stops_for_each; intros | intro]
    | |- stops_at_raise (for_each _ _ _) => apply stops_for_each; intros
    end.

Section Stops.
Context {OM : ObjectModel} {L : Library}.

Lemma stops_setup_test_data (session : Session) : stops_at_raise (setup_test_data session).
Proof.
  unfold setup_test_data, list_index, comprehension.
  cbn [for_each seq]. trace_stop.
Qed.

(** The two facts together. *)
Lemma raised_by_newest_call (e : exn) (new old t : list Event) :
  t = (new ++ old)%list -> raised_by_call e new -> raised_at_call e t ->
  exists (A : Type) (o : Op A) (earlier : list Event),
    t = (ev_call A o (Raised e) :: earlier ++ old)%list.
Proof.
  intros -> (T & o' & Hin) (A & o & rest & Heq).
  destruct new as [|x new]; [contradiction|].
  cbn [app] in Heq. injection Heq as -> _. now exists A, o, new.
Qed.

End Stops.

(** X1. For every library: an exception that leaves [setup_test_data]
    was raised by the last call it made.  Its own [IndexError], at
    [categories[i]], is never raised, and after a call has raised it
    makes no other: it does not flush or commit. *)
Theorem setup_test_data_stops_at_the_call_that_raises
    {OM : ObjectModel} {L : Library} (session : Session) (w w' : World) (e : exn) :
  setup_test_data session w = (Raised e, w') ->
  exists (A : Type) (o : Op A) (earlier : list Event),
    trace w' = (ev_call A o (Raised e) :: earlier ++ trace w)%list.
Proof.
  intros H.
  destruct (origin_setup_test_data session w) as (new & Ht & Hr).
  rewrite H in Ht, Hr. cbn [fst snd] in Ht, Hr.
  destruct (Hr e eq_refl) as [[] | Hcall].
  exact (raised_by_newest_call e new (trace w) (trace w') Ht Hcall
           (stops_setup_test_data session w e w' H)).
Qed.

(** On the reference library, with a session that was never opened:
    [session.add(user)] raises, after [uuid4()] and [User(...)]. *)
Lemma setup_test_data_stops_witness :
  exists (e : exn) (w' : @World RefObjects Reference)
         (A : Type) (o : Op A) (earlier : list Event),
    @setup_test_data RefObjects Reference 0 (fresh_world [] [] []) = (Raised e, w')
    /\ exn_type e = "InvalidRequestError"
    /\ trace w' = (ev_call A o (Raised e) :: earlier ++ [])%list.
Proof.
  destruct (setup_test_data_stops_at_the_call_that_raises
              (OM := RefObjects) (L := Reference) 0 (fresh_world [] [] [])
              (snd (@setup_test_data RefObjects Reference 0 (fresh_world [] [] [])))
              (mk_exn "InvalidRequestError" "This object is not known to the library" true)
              eq_refl) as (A & o & earlier & H).
  eexists. eexists. exists A, o, earlier.
  split; [reflexivity | split; [reflexivity | exact H]].
Defined.



(* --------------------------------------------------------------------- *)
(** *** The two serializations and a memory without application *)

Section Serialize.
Context {OM : ObjectModel} {L : Library}.


Lemma call_returned {A : Type} (o : Op A) (w w' : World) (a : A) :
  call o w = (Returned a, w') -> trace w' = ev_call A o (Returned a) :: trace w.
Proof.
  unfold call. destruct (perform A o (lib w)) as [r st]. now intros [= -> <-].
Qed.


End Serialize.




(* --------------------------------------------------------------------- *)
(** *** The loops and their verdicts *)

Section Loops.
Context {OM : ObjectModel} {L : Library}.

(** The three ways a turn of the bug demonstration's loop can go. *)
Lemma bug_loop_body_cases (i : nat) (memory : Memory) (failed : bool) (w : World) :
  let w0 := after_print ("   Memory " ++ str_nat i
                           ++ ": Attempting to access memory.app.name...") w in
  match bug_serialize memory w0 with
  | (Returned response, w1) =>
      bug_loop_body i memory failed w =
        (Returned failed,
         after_print ("      ✅ Success (unexpected!) - app_name: "
                        ++ str_option (r_app_name response)) w1)
  | (Raised e, w1) =>
      if exn_is_Exception e
      then bug_loop_body i memory failed w =
             (Returned true,
              after_print
                "         ^ This is the bug! Can't access relationships after session close"
                (after_print ("         Error: " ++ slice_to 100 (exn_msg e) ++ "...")
                   (after_print ("      💥 FAILED: " ++ exn_type e) w1)))
      else bug_loop_body i memory failed w = (Raised e, w1)
  end.
Proof.
  unfold bug_loop_body, try_except. cbn.
  destruct (bug_serialize memory _) as [[response|e] w1]; cbn; [reflexivity|].
  now destruct (exn_is_Exception e).
Qed.

(** The loop returns [False] from [False] exactly when no turn fails. *)
Lemma bug_loop_false (xs : list (nat * Memory)) :
  forall w, (exists w', bug_loop xs false w = (Returned false, w')) <-> none_fails xs w.
Proof.
  unfold bug_loop.
  induction xs as [|[i m] xs IH]; intros w; simpl.
  - split; [trivial|]. intros _. now exists w.
  - pose proof (bug_loop_body_cases i m false w) as Hc. cbn zeta in Hc.
    destruct (bug_serialize m _) as [[response|e] w1].
    + rewrite Hc. rewrite IH. split.
      * intros Hall. now exists response, w1.
      * intros (response' & w1' & Heq & Hall). now inversion Heq; subst response' w1'.
    + split.
      * intros [w' H]. exfalso.
        destruct (exn_is_Exception e); rewrite Hc in H; [|discriminate].
        apply (bug_loop_stays_failed xs) in H. discriminate.
      * intros (response' & w1' & Heq & _). discriminate.
Qed.

End Loops.

(** X4. For every library: the bug demonstration's loop and verdict
    return [False], "bug not reproduced", exactly when every memory of
    the list serializes; in particular when the list is empty. *)
Theorem bug_not_reproduced_iff_every_memory_serializes
    {OM : ObjectModel} {L : Library} (memories : list Memory) (w : World) :
  ((exists w', bug_attempts memories w = (Returned false, w'))
   <-> none_fails (enumerate memories 1) w)
  /\ bug_attempts [] w
     = (Returned false,
        after_print (nl ++ "❌ Bug not reproduced - this might be SQLite-specific behavior") w).
Proof.
  split; [|reflexivity].
  unfold bug_attempts. cbn [bind].
  rewrite <- (bug_loop_false (enumerate memories 1) w).
  split.
  - intros [w' H].
    destruct (bug_loop (enumerate memories 1) false w) as [[failed|e] w1]; [|discriminate].
    destruct failed; cbn in H; [discriminate|]. now exists w1.
  - intros [w' H]. rewrite H. cbn. eexists. reflexivity.
Qed.



(** X6. For every library: when the loop and verdict of the fix
    demonstration return, the loop has counted at most as many
    successes as there are memories; they return [True] after printing
    "Fix confirmed" with that number when it counted all of them, and
    [False] after printing "Partial success" with the count and the
    number when it counted fewer. *)
Theorem fix_verdict_reports_the_count
    {OM : ObjectModel} {L : Library} (memories : list Memory) (w w' : World) (b : bool) :
  fix_attempts memories w = (Returned b, w') ->
  exists count w1,
    fix_loop (enumerate memories 1) 0 w = (Returned count, w1)
    /\ count <= length memories
    /\ ((b = true /\ count = length memories
         /\ w' = after_print (nl ++ "✅ Fix confirmed: All " ++ str_nat count
                                 ++ " memories serialized successfully!") w1)
        \/ (b = false /\ count < length memories
            /\ w' = after_print (nl ++ "⚠️  Partial success: " ++ str_nat count ++ "/"
                                    ++ str_nat (length memories) ++ " serialized") w1)).
Proof.
  unfold fix_attempts. cbn [bind]. intros H.
  assert (Hlen : length (enumerate memories 1) = length memories).
  { unfold enumerate. rewrite length_combine, length_seq. apply Nat.min_id. }
  destruct (fix_loop (enumerate memories 1) 0 w) as [[count|e] w1] eqn:Hloop; [|discriminate].
  pose proof (fix_loop_bound _ _ _ _ _ Hloop) as Hb. rewrite Hlen in Hb. cbn [Nat.add] in Hb.
  exists count, w1. split; [reflexivity | split; [exact Hb|]].
  destruct (Nat.eqb count (length memories)) eqn:Hc; cbn in H; injection H as <- <-.
  - left. apply Nat.eqb_eq in Hc. now split; [|split].
  - right. apply Nat.eqb_neq in Hc. split; [reflexivity | split; [lia | reflexivity]].
Qed.

(** On the reference library with the schema that wants a category,
    with the three memories as the query of the fix demonstration
    returns them: two are counted. *)
Lemma fix_verdict_reports_witness :
  exists count w1,
    @fix_loop RefObjects (RefLib validate_with_category)
      (enumerate (fix_memories (fresh_state [] [] [])) 1) 0 strict_world
    = (Returned count, w1)
    /\ count = 2.
Proof.
  assert (Hrun : @fix_attempts RefObjects (RefLib validate_with_category)
                   (fix_memories (fresh_state [] [] [])) strict_world
                 = (Returned false,
                    snd (@fix_attempts RefObjects (RefLib validate_with_category)
                           (fix_memories (fresh_state [] [] [])) strict_world)))
    by (vm_compute; reflexivity).
  destruct (fix_verdict_reports_the_count _ _ _ _ Hrun) as (count & w1 & Hloop & _).
  exists count, w1. split; [exact Hloop|].
  vm_compute in Hloop. now injection Hloop as <- _.
Defined.

(* --------------------------------------------------------------------- *)
(** *** The sessions a demonstration opens and closes *)

Section Tally.
Context {OM : ObjectModel}.






End Tally.






Section SessionsOfSetup.
Context {OM : ObjectModel} {L : Library}.



End SessionsOfSetup.



(** On the reference library with a query that raises: two sessions
    were opened, one was closed. *)
Example a_failed_query_leaves_its_session_open :
  fst (@bug_fetch RefObjects (with_query (Raised database_error))
         (world_with_query (Raised database_error)))
  = Raised database_error
  /\ opens (trace (snd (@bug_fetch RefObjects (with_query (Raised database_error))
                         (world_with_query (Raised database_error))))) = 2
  /\ closes (trace (snd (@bug_fetch RefObjects (with_query (Raised database_error))
                          (world_with_query (Raised database_error))))) = 1.
Proof. vm_compute. repeat split. Qed.

(* --------------------------------------------------------------------- *)
(** *** What the diff and the summary tell *)

(** Walk through a demonstration, function by function. *)
Ltac walk_prepare side :=
  unfold prepare_test_data;
  apply within_bind; [unfold create_test_database; walk side |];
  intros [? ?];
  apply within_bind; [|intro; apply within_ret];
  apply within_with_SessionLocal; [intro; side | intros; side |];
  intro;
  apply within_bind; [unfold setup_test_data, comprehension, list_index; walk side |];
  walk side.

Ltac walk_reproduce_bug side :=
  unfold reproduce_bug_without_fix;
  apply within_bind;
  [ unfold bug_fetch, bug_query;
    do 3 (apply within_bind; [apply within_print; side | intro]);
    apply within_bind; [walk_prepare side |];
    walk side
  | intro; unfold bug_attempts, bug_loop, bug_loop_body, bug_serialize, comprehension;
    walk side ].

Ltac walk_demonstrate_fix side :=
  unfold demonstrate_fix_with_eager_loading;
  apply within_bind;
  [ unfold fix_fetch, fix_query;
    do 3 (apply within_bind; [apply within_print; side | intro]);
    apply within_bind; [walk_prepare side |];
    walk side
  | intro; unfold fix_attempts, fix_loop, fix_loop_body, fix_serialize, comprehension;
    walk side ].

Section ClosingLines.
Context {OM : ObjectModel} {L : Library}.

Lemma prints_In (line : string) (t : list Event) :
  existsb (prints line) t = true <-> In (ev_print line) t.
Proof.
  rewrite existsb_exists. split.
  - intros (e & Hin & Hp). destruct e as [l| |]; try discriminate.
    apply String.eqb_eq in Hp. now subst l.
  - intros Hin. exists (ev_print line). split; [exact Hin|]. apply String.eqb_refl.
Qed.

Lemma prints_none (lines : list string) (line : string) (t : list Event) :
  Forall (prints_none_of lines) t -> In line lines -> existsb (prints line) t = false.
Proof.
  intros Hall Hin. induction Hall as [|e t He _ IH]; [reflexivity|].
  cbn [existsb]. rewrite IH, orb_false_r.
  unfold prints_none_of in He. rewrite forallb_forall in He.
  apply negb_true_iff. exact (He line Hin).
Qed.

Lemma reproduce_bug_keeps_closing_lines :
  within (prints_none_of closing_lines) reproduce_bug_without_fix.
Proof. walk_reproduce_bug ltac:(reflexivity). Qed.

Lemma demonstrate_fix_keeps_closing_lines :
  within (prints_none_of closing_lines) demonstrate_fix_with_eager_loading.
Proof. walk_demonstrate_fix ltac:(reflexivity). Qed.

Lemma main_try_both_returned (w : World) b w1 f w2 :
  reproduce_bug_without_fix (at_part_1 w) = (Returned b, w1) ->
  demonstrate_fix_with_eager_loading (at_part_2 w1) = (Returned f, w2) ->
  main_try (after_banner w) = print_summary b f (snd (show_the_actual_code_diff w2)).
Proof.
  intros H1 H2. unfold main_try. cbn [bind print].
  unfold at_part_1, after_print in H1. rewrite H1. cbn [bind print].
  unfold at_part_2, after_print in H2. now rewrite H2.
Qed.

End ClosingLines.

(** The events added, read off a trace that holds the events of parts
    run as a whole. *)
Ltac events_between l old :=
  lazymatch l with
  | old => lazymatch type of old with list ?E => constr:(@nil E) end
  | (?mid ++ ?l')%list => let r := events_between l' old in constr:((mid ++ r)%list)
  | ?x :: ?l' => let r := events_between l' old in constr:(x :: r)
  end.

Ltac added :=
  lazymatch goal with
  | |- exists new, ?t = (new ++ ?old)%list /\ _ =>
      let r := events_between t old in
      exists r; split; [cbn [app]; repeat (rewrite <- app_assoc; cbn [app]); reflexivity |]
  end.

(** A line of [closing_lines] that is not among the events found. *)
Ltac absent Hb Hf :=
  let H := fresh "H" in
  intros H; exfalso; apply prints_In in H; revert H;
  repeat (cbn [existsb]; rewrite ?existsb_app);
  rewrite ?(prints_none closing_lines _ _ Hb), ?(prints_none closing_lines _ _ Hf)
    by (cbn; auto 6);
  vm_compute; discriminate.

(** A line that is. *)
Ltac present := solve [repeat first [left; reflexivity | right]].

(** X8. For every library: [main] prints the two diffs and the title of
    the summary exactly when both demonstrations have returned, and
    "Fix validated!" exactly when moreover the fix demonstration has
    returned [True].  When an exception stops a demonstration none of
    them is printed. *)
Theorem diff_and_summary_follow_both_demonstrations
    {OM : ObjectModel} {L : Library} (w : World) :
  exists new,
    trace (snd (main w)) = (new ++ trace w)%list
    /\ (forall line, In line [diff_before; diff_after; "📊 SUMMARY"] ->
          (In (ev_print line) new
           <-> exists b f w1 w2,
                 reproduce_bug_without_fix (at_part_1 w) = (Returned b, w1)
                 /\ demonstrate_fix_with_eager_loading (at_part_2 w1) = (Returned f, w2)))
    /\ (In (ev_print (nl ++ "✅ Fix validated!")) new
        <-> exists b w1 w2,
              reproduce_bug_without_fix (at_part_1 w) = (Returned b, w1)
              /\ demonstrate_fix_with_eager_loading (at_part_2 w1) = (Returned true, w2)).
Proof.
  pose proof (main_outcome w) as Hmain.
  destruct (reproduce_bug_keeps_closing_lines (at_part_1 w)) as (nb & Hnb & Hb).
  destruct (reproduce_bug_without_fix (at_part_1 w)) as [[b|e] w1] eqn:HR; cbn [snd] in Hnb;
    unfold at_part_1, after_banner, after_print in Hnb; cbn [trace] in Hnb.
  - destruct (demonstrate_fix_keeps_closing_lines (at_part_2 w1)) as (nf & Hnf & Hf).
    destruct (demonstrate_fix_with_eager_loading (at_part_2 w1)) as [[f|e] w2] eqn:HF;
      cbn [snd] in Hnf; unfold at_part_2, after_print in Hnf; cbn [trace] in Hnf.
    + rewrite (main_try_both_returned w b w1 f w2 HR HF) in Hmain.
      destruct b, f;
        cbn [print_summary show_the_actual_code_diff bind print ret snd fst trace lib] in Hmain;
        rewrite Hmain; cbn [snd trace]; rewrite Hnf, Hnb;
        added;
        (split;
         [ intros line [<-|[<-|[<-|[]]]];
           (split; [intros _; eexists; eexists; exists w1, w2; split; [reflexivity | exact HF] | intros _; present])
         | split;
           [ first [ intros _; eexists; exists w1, w2; split; [reflexivity | exact HF] | absent Hb Hf ]
           | first [ intros _; present
                   | intros (b0 & w0 & w3 & Heq & H3); injection Heq as <- <-;
                     rewrite HF in H3; discriminate H3 ] ] ]).
    + rewrite (main_try_fix_raised w b w1 e w2 HR HF) in Hmain.
      destruct (exn_is_Exception e); rewrite Hmain;
        cbn [snd trace after_main_except]; rewrite Hnf, Hnb;
        added;
        (split;
         [ intros line [<-|[<-|[<-|[]]]];
           (split;
            [ absent Hb Hf
            | intros (b0 & f0 & w0 & w3 & Heq & H3); injection Heq as <- <-;
              rewrite HF in H3; discriminate H3 ])
         | split;
           [ absent Hb Hf
           | intros (b0 & w0 & w3 & Heq & H3); injection Heq as <- <-;
             rewrite HF in H3; discriminate H3 ] ]).
  - rewrite (main_try_bug_raised w e w1 HR) in Hmain.
    destruct (exn_is_Exception e); rewrite Hmain;
      cbn [snd trace after_main_except]; rewrite Hnb;
      added;
      (split;
       [ intros line [<-|[<-|[<-|[]]]];
         (split;
          [ absent Hb Hb
          | intros (b0 & f0 & w0 & w3 & Heq & H3); discriminate Heq ])
       | split;
         [ absent Hb Hb
         | intros (b0 & w0 & w3 & Heq & H3); discriminate Heq ] ]).
Qed.

(* --------------------------------------------------------------------- *)
(** *** Every memory is attempted once, in order *)

Section Attempts.
Context {OM : ObjectModel} {L : Library}.

Lemma prefix_empty (s : string) : String.prefix EmptyString s = true.
Proof. now destruct s. Qed.

Lemma announced_app (t1 t2 : list Event) :
  announced (t1 ++ t2) = (announced t2 ++ announced t1)%list.
Proof. unfold announced. now rewrite rev_app_distr, flat_map_app. Qed.

Lemma announced_none (t : list Event) : Forall no_print t -> announced t = [].
Proof.
  unfold announced. induction 1 as [|e t He _ IH]; [reflexivity|].
  cbn [rev]. rewrite flat_map_app, IH. now destruct e.
Qed.

Lemma bug_serialize_no_print (memory : Memory) : within no_print (bug_serialize memory).
Proof. unfold bug_serialize, comprehension. walk ltac:(exact I). Qed.

Lemma fix_serialize_no_print (memory : Memory) : within no_print (fix_serialize memory).
Proof. unfold fix_serialize, comprehension. walk ltac:(exact I). Qed.

(** A turn that returns has announced its memory, once. *)
Lemma bug_loop_body_announces (i : nat) (memory : Memory) (failed r : bool) (w w' : World) :
  bug_loop_body i memory failed w = (Returned r, w') ->
  exists new, trace w' = (new ++ trace w)%list /\ announced new = [bug_announcement i].
Proof.
  intros H. pose proof (bug_loop_body_cases i memory failed w) as Hc. cbn zeta in Hc.
  destruct (bug_serialize_no_print memory
              (after_print ("   Memory " ++ str_nat i
                              ++ ": Attempting to access memory.app.name...") w))
    as (ns & Hns & Hsilent).
  apply announced_none in Hsilent.
  destruct (bug_serialize memory _) as [[response|e] w1]; cbn [snd] in Hns.
  - rewrite Hc in H. injection H as <- <-.
    unfold after_print in *. cbn [trace] in *. rewrite Hns.
    eexists (_ :: ns ++ [_])%list. split; [cbn [app]; now rewrite <- app_assoc|].
    change (?x :: ns ++ ?l)%list with ([x] ++ ns ++ l)%list.
    rewrite !announced_app, Hsilent. unfold announced, bug_announcement. cbn. now rewrite prefix_empty.
  - destruct (exn_is_Exception e); rewrite Hc in H; [|discriminate].
    injection H as <- <-.
    unfold after_print in *. cbn [trace] in *. rewrite Hns.
    eexists (_ :: _ :: _ :: ns ++ [_])%list. split; [cbn [app]; now rewrite <- app_assoc|].
    change (?x :: ?y :: ?z :: ns ++ ?l)%list with ([x; y; z] ++ ns ++ l)%list.
    rewrite !announced_app, Hsilent. unfold announced, bug_announcement. cbn. now rewrite prefix_empty.
Qed.

Lemma fix_loop_body_announces (i : nat) (memory : Memory) (count r : nat) (w w' : World) :
  fix_loop_body i memory count w = (Returned r, w') ->
  exists new, trace w' = (new ++ trace w)%list /\ announced new = [fix_announcement i].
Proof.
  intros H. pose proof (fix_loop_body_cases i memory count w) as Hc. cbn zeta in Hc.
  destruct (fix_serialize_no_print memory
              (after_print ("   Memory " ++ str_nat i
                              ++ ": Serializing with eager-loaded data...") w))
    as (ns & Hns & Hsilent).
  apply announced_none in Hsilent.
  destruct (fix_serialize memory _) as [[response|e] w1]; cbn [snd] in Hns.
  - rewrite Hc in H. injection H as <- <-.
    unfold after_print in *. cbn [trace] in *. rewrite Hns.
    eexists (_ :: _ :: ns ++ [_])%list. split; [cbn [app]; now rewrite <- app_assoc|].
    change (?x :: ?y :: ns ++ ?l)%list with ([x; y] ++ ns ++ l)%list.
    rewrite !announced_app, Hsilent. unfold announced, fix_announcement. cbn.
    now rewrite prefix_empty.
  - destruct (exn_is_Exception e); rewrite Hc in H; [|discriminate].
    injection H as <- <-.
    unfold after_print in *. cbn [trace] in *. rewrite Hns.
    eexists (_ :: ns ++ [_])%list. split; [cbn [app]; now rewrite <- app_assoc|].
    change (?x :: ns ++ ?l)%list with ([x] ++ ns ++ l)%list.
    rewrite !announced_app, Hsilent. unfold announced, fix_announcement. cbn.
    now rewrite prefix_empty.
Qed.

(** A loop that returns has announced its memories, in order. *)
Lemma bug_loop_announces (xs : list (nat * Memory)) :
  forall failed r w w',
    bug_loop xs failed w = (Returned r, w') ->
    exists new,
      trace w' = (new ++ trace w)%list
      /\ announced new = map (fun x => bug_announcement (fst x)) xs.
Proof.
  unfold bug_loop.
  induction xs as [|[i m] xs IH]; intros failed r w w' H; cbn [for_each] in H.
  - injection H as _ <-. now exists [].
  - apply bind_returned in H as (failed1 & w1 & H1 & H).
    apply bug_loop_body_announces in H1 as (new1 & Ht1 & Ha1).
    apply IH in H as (new2 & Ht2 & Ha2).
    exists (new2 ++ new1)%list. split; [now rewrite Ht2, Ht1, app_assoc|].
    now rewrite announced_app, Ha1, Ha2.
Qed.

Lemma fix_loop_announces (xs : list (nat * Memory)) :
  forall count r w w',
    fix_loop xs count w = (Returned r, w') ->
    exists new,
      trace w' = (new ++ trace w)%list
      /\ announced new = map (fun x => fix_announcement (fst x)) xs.
Proof.
  unfold fix_loop.
  induction xs as [|[i m] xs IH]; intros count r w w' H; cbn [for_each] in H.
  - injection H as _ <-. now exists [].
  - apply bind_returned in H as (count1 & w1 & H1 & H).
    apply fix_loop_body_announces in H1 as (new1 & Ht1 & Ha1).
    apply IH in H as (new2 & Ht2 & Ha2).
    exists (new2 ++ new1)%list. split; [now rewrite Ht2, Ht1, app_assoc|].
    now rewrite announced_app, Ha1, Ha2.
Qed.

Lemma enumerate_numbers {A B : Type} (f : nat -> B) (xs : list A) (start : nat) :
  map (fun x => f (fst x)) (enumerate xs start) = map f (seq start (length xs)).
Proof.
  unfold enumerate. revert start.
  induction xs as [|x xs IH]; intros start; [reflexivity|].
  cbn [length seq combine map fst]. now rewrite IH.
Qed.

End Attempts.

(** X9. For every library: when the loop and verdict of a demonstration
    return, every memory of the list has been announced exactly once, in
    the order of the list and numbered from 1, whether serializing the
    ones before it failed or not. *)
Theorem every_memory_is_attempted_once_in_order
    {OM : ObjectModel} {L : Library} (memories : list Memory) (w : World) :
  (forall b w', bug_attempts memories w = (Returned b, w') ->
     exists new,
       trace w' = (new ++ trace w)%list
       /\ announced new = map bug_announcement (seq 1 (length memories)))
  /\ (forall b w', fix_attempts memories w = (Returned b, w') ->
        exists new,
          trace w' = (new ++ trace w)%list
          /\ announced new = map fix_announcement (seq 1 (length memories))).
Proof.
  split; intros b w' H.
  - unfold bug_attempts in H.
    apply bind_returned in H as (failed & w1 & Hloop & H).
    apply bug_loop_announces in Hloop as (new & Ht & Ha).
    rewrite enumerate_numbers in Ha.
    destruct failed; cbn [bind print ret] in H; injection H as _ <-; cbn [trace];
      rewrite Ht; eexists (_ :: new)%list; (split; [reflexivity|]);
      change (?x :: new)%list with ([x] ++ new)%list;
      now rewrite announced_app, Ha, app_nil_r.
  - unfold fix_attempts in H.
    apply bind_returned in H as (count & w1 & Hloop & H).
    apply fix_loop_announces in Hloop as (new & Ht & Ha).
    rewrite enumerate_numbers in Ha.
    destruct (Nat.eqb count (length memories)); cbn [bind print ret] in H;
      injection H as _ <-; cbn [trace];
      rewrite Ht; eexists (_ :: new)%list; (split; [reflexivity|]);
      change (?x :: new)%list with ([x] ++ new)%list;
      now rewrite announced_app, Ha, app_nil_r.
Qed.

(** On the reference library, a memory without a session and then a
    memory without application: both fail, both are announced. *)
Lemma every_memory_is_attempted_witness :
  exists new,
    trace (snd (@bug_attempts RefObjects Reference [stray_memory; orphan_memory]
                  (fresh_world [] [] [])))
    = (new ++ [])%list
    /\ announced new = [bug_announcement 1; bug_announcement 2].
Proof.
  assert (Hrun : @bug_attempts RefObjects Reference [stray_memory; orphan_memory]
                   (fresh_world [] [] [])
                 = (Returned true,
                    snd (@bug_attempts RefObjects Reference [stray_memory; orphan_memory]
                           (fresh_world [] [] []))))
    by (vm_compute; reflexivity).
  exact (proj1 (every_memory_is_attempted_once_in_order
                  [stray_memory; orphan_memory] (fresh_world [] [] [])) _ _ Hrun).
Defined.

(* --------------------------------------------------------------------- *)
(** *** What [setup_test_data] returns *)

(** Take a run that returned apart, call by call. *)
Ltac take_apart :=
  repeat match goal with
    | H : bind _ _ _ = (Returned _, _) |- _ =>
        apply bind_returned in H as (? & ? & ? & ?)
    | H : ret _ _ = (Returned _, _) |- _ =>
        unfold ret in H; injection H as ? ?; subst
    | H : call _ _ = (Returned _, _) |- _ => apply call_returned in H
    | H : (if _ then _ else _) _ = (Returned _, _) |- _ =>
        progress cbn [Nat.ltb Nat.leb] in H
    | H : match nth_error _ _ with _ => _ end _ = (Returned _, _) |- _ =>
        progress cbn [nth_error app] in H
    | H : for_each _ _ _ _ = (Returned _, _) |- _ =>
        progress cbn [for_each app] in H
    end.

Section Returned.
Context {OM : ObjectModel} {L : Library}.

Lemma try_finally_returned {A : Type} (body : M A) (cleanup : M unit) (w w' : World) (a : A) :
  try_finally body cleanup w = (Returned a, w') ->
  exists w1 u, body w = (Returned a, w1) /\ cleanup w1 = (Returned u, w').
Proof.
  unfold try_finally. destruct (body w) as [[a1|e] w1].
  - destruct (cleanup w1) as [[u|e'] w2] eqn:Hc; [|discriminate].
    intros H. injection H as -> ->. exists w1, u. split; [reflexivity | exact Hc].
  - destruct (cleanup w1) as [[u|e'] w2]; discriminate.
Qed.

(** [setup_test_data] returns three memory ids. *)
Lemma setup_test_data_returns_three_ids (session : Session) (w w' : World)
    (user_id app_id : Uuid) (memory_ids : list Uuid) :
  setup_test_data session w = (Returned (user_id, app_id, memory_ids), w') ->
  exists id1 id2 id3 : Uuid, memory_ids = [id1; id2; id3].
Proof.
  intros H. unfold setup_test_data, list_index, comprehension in H.
  cbn [for_each seq] in H. cbv zeta in H.
  take_apart. now do 3 eexists.
Qed.

End Returned.

(** X10. For every library: when [setup_test_data] returns, it has
    added to the session, in this order, the user, the application, two
    categories and three memories, and nothing else; its last calls are
    the commit and then the reads of [user.id], of [app.id] and of the
    [id] of each of the three memories in the order they were added; and
    it returns what these reads returned, the three memory ids in that
    order. *)
Theorem setup_test_data_returns_the_ids_of_what_it_added
    {OM : ObjectModel} {L : Library} (session : Session) (w w' : World)
    (user_id app_id : Uuid) (memory_ids : list Uuid) :
  setup_test_data session w = (Returned (user_id, app_id, memory_ids), w') ->
  exists new,
    trace w' = (new ++ trace w)%list
    /\ exists (user : User) (app : App) (c1 c2 : Category) (m1 m2 m3 : Memory)
              (id1 id2 id3 : Uuid),
         memory_ids = [id1; id2; id3]
         /\ added new = [E_User user; E_App app; E_Category c1; E_Category c2;
                         E_Memory m1; E_Memory m2; E_Memory m3]
         /\ firstn 6 new
            = [ev_call _ (Memory_id m3) (Returned id3);
               ev_call _ (Memory_id m2) (Returned id2);
               ev_call _ (Memory_id m1) (Returned id1);
               ev_call _ (App_id app) (Returned app_id);
               ev_call _ (User_id user) (Returned user_id);
               ev_call _ (session_commit session) (Returned tt)].
Proof.
  intros H. unfold setup_test_data, list_index, comprehension in H.
  cbn [for_each seq] in H. cbv zeta in H.
  take_apart.
  repeat match goal with
         | H : trace ?x = _ |- context [trace ?x] => rewrite H
         end.
  added.
  do 10 eexists. split; [reflexivity|]. split; [reflexivity|].
  repeat match goal with u : unit |- _ => destruct u end.
  reflexivity.
Qed.

(** On the reference library, in the state in which the script calls
    it: the ids are 0, 1 and 4, 5, 6. *)
Lemma setup_test_data_returns_witness :
  exists new,
    trace (snd (@setup_test_data RefObjects Reference 1
                  (@mk_World RefObjects Reference [] ready_state)))
    = (new ++ [])%list
    /\ exists (user : UserRow) (app : AppRow) (c1 c2 : CategoryRow) (m1 m2 m3 : MemoryObj)
              (id1 id2 id3 : nat),
         [4; 5; 6] = [id1; id2; id3]
         /\ added new = [E_User user; E_App app; E_Category c1; E_Category c2;
                         E_Memory m1; E_Memory m2; E_Memory m3]
         /\ firstn 6 new
            = [ev_call _ (Memory_id m3) (Returned id3);
               ev_call _ (Memory_id m2) (Returned id2);
               ev_call _ (Memory_id m1) (Returned id1);
               ev_call _ (App_id app) (Returned 1);
               ev_call _ (User_id user) (Returned 0);
               ev_call _ (session_commit 1) (Returned tt)].
Proof.
  assert (Hrun : @setup_test_data RefObjects Reference 1
                   (@mk_World RefObjects Reference [] ready_state)
                 = (Returned (0, 1, [4; 5; 6]),
                    snd (@setup_test_data RefObjects Reference 1
                           (@mk_World RefObjects Reference [] ready_state))))
    by (vm_compute; reflexivity).
  exact (setup_test_data_returns_the_ids_of_what_it_added
           (OM := RefObjects) (L := Reference) 1 _ _ 0 1 [4; 5; 6] Hrun).
Defined.

(** X11. For every library: when the preparation of a demonstration
    returns, [setup_test_data] has returned three memory ids, the line
    printed is "Created test data: 3 memories", and the session was
    closed after it. *)
Theorem prepare_test_data_announces_three_memories
    {OM : ObjectModel} {L : Library} (w w' : World)
    (SessionLocal : SessionFactory) (user_id app_id : Uuid) (memory_ids : list Uuid) :
  prepare_test_data w = (Returned (SessionLocal, (user_id, app_id, memory_ids)), w') ->
  length memory_ids = 3
  /\ exists session rest,
       trace w' = ev_call _ (session_close session) (Returned tt)
                    :: ev_print "✅ Created test data: 3 memories" :: rest.
Proof.
  intros H. unfold prepare_test_data, create_test_database, with_SessionLocal in H.
  apply bind_returned in H as ([engine SessionLocal'] & w1 & _ & H).
  apply bind_returned in H as (ids & w2 & H & Hret).
  unfold ret in Hret. injection Hret as <- -> <-.
  apply bind_returned in H as (session & w3 & _ & H).
  apply try_finally_returned in H as (w4 & u & H & Hclose).
  apply call_returned in Hclose. destruct u.
  apply bind_returned in H as ([[user_id' app_id'] memory_ids'] & w5 & Hsetup & H).
  apply setup_test_data_returns_three_ids in Hsetup as (id1 & id2 & id3 & ->).
  cbn [bind print ret] in H. injection H as <- <- <- <-.
  split; [reflexivity|]. exists session. eexists. rewrite Hclose. reflexivity.
Qed.

(** On the reference library, in a world where nothing has happened. *)
Lemma prepare_test_data_announces_witness :
  exists session rest,
    trace (snd (@prepare_test_data RefObjects Reference (fresh_world [] [] [])))
    = ev_call _ (session_close session) (Returned tt)
        :: ev_print "✅ Created test data: 3 memories" :: rest.
Proof.
  assert (Hrun : @prepare_test_data RefObjects Reference (fresh_world [] [] [])
                 = (Returned (mk_SessionFactoryObj false false 0, (0, 1, [4; 5; 6])),
                    snd (@prepare_test_data RefObjects Reference (fresh_world [] [] []))))
    by (vm_compute; reflexivity).
  exact (proj2 (prepare_test_data_announces_three_memories _ _ _ _ _ _ Hrun)).
Defined.

(** X12. For every library: when the query of a demonstration returns
    no memory, the bug demonstration returns [False], "bug not
    reproduced", and the fix demonstration returns [True], "Fix
    confirmed: All 0 memories serialized successfully!", neither having
    serialized anything. *)
Theorem no_memory_not_reproduced_and_confirmed
    {OM : ObjectModel} {L : Library} (w w1 : World) :
  (bug_fetch w = (Returned [], w1) ->
     reproduce_bug_without_fix w
     = (Returned false,
        after_print (nl ++ "❌ Bug not reproduced - this might be SQLite-specific behavior")
          w1))
  /\ (fix_fetch w = (Returned [], w1) ->
        demonstrate_fix_with_eager_loading w
        = (Returned true,
           after_print (nl ++ "✅ Fix confirmed: All 0 memories serialized successfully!")
             w1)).
Proof.
  split; intros H.
  - unfold reproduce_bug_without_fix. cbn [bind]. now rewrite H.
  - unfold demonstrate_fix_with_eager_loading. cbn [bind]. now rewrite H.
Qed.

(** On the reference library with a query that finds nothing. *)
Lemma no_memory_witness :
  fst (@demonstrate_fix_with_eager_loading RefObjects (with_query (Returned []))
         (world_with_query (Returned [])))
  = Returned true.
Proof.
  assert (Hrun : @fix_fetch RefObjects (with_query (Returned []))
                   (world_with_query (Returned []))
                 = (Returned [],
                    snd (@fix_fetch RefObjects (with_query (Returned []))
                           (world_with_query (Returned [])))))
    by (vm_compute; reflexivity).
  exact (f_equal fst
           (proj2 (no_memory_not_reproduced_and_confirmed
                     (world_with_query (Returned [])) _) Hrun)).
Defined.
